(** * fetch_blfs_sections.py: a shallow embedding and its properties

    The script fetches a BLFS chapter index, follows the package links of the
    index and prints, for every package page, the title and the command
    blocks.  The embedding keeps the three parts of the script
    ([fetch_package], [fetch_chapter] and the entry point) as computations in
    a trace-and-exception monad.  The two libraries the script calls are
    modelled by what they do: [requests] as an oracle from URLs to
    responses, BeautifulSoup as queries over an explicit parse tree, the
    suffix selector by the pattern the selector library matches with. *)

From Stdlib Require Import ZArith Ascii String.
From stdpp Require Import base list strings gmap.

Local Open Scope Z_scope.
Set Warnings "-register-all".

(** ** Python strings *)

Module PyStr.

(** [str.isspace] on one character, for the code points below 256. *)
Definition isspace (c : ascii) : bool :=
  let n := N_of_ascii c in
  ((9 <=? n) && (n <=? 13) || (28 <=? n) && (n <=? 32)
   || (n =? 133) || (n =? 160))%N.

(** [str.lstrip()] *)
Fixpoint lstrip (s : string) : string :=
  match s with
  | EmptyString => EmptyString
  | String c s' => if isspace c then lstrip s' else s
  end.

(** [str.rstrip()] *)
Fixpoint rstrip (s : string) : string :=
  match s with
  | EmptyString => EmptyString
  | String c s' =>
      match rstrip s' with
      | EmptyString => if isspace c then EmptyString else String c EmptyString
      | r => String c r
      end
  end.

(** [str.strip()] *)
Definition strip (s : string) : string := rstrip (lstrip s).

(** [s.endswith(suffix)] *)
Fixpoint endswith (s suffix : string) : bool :=
  String.eqb s suffix
  || match s with
     | EmptyString => false
     | String _ s' => endswith s' suffix
     end.

(** The line feed, written [\n] in the script. *)
Definition LF : string := String (ascii_of_nat 10) EmptyString.

(** [re.compile(".*?" + re.escape(suffix) + "$", re.DOTALL).match(s)]: the
    text [suffix] stands at the end of [s], or just before one line feed
    that ends [s] (where [$] also matches). *)
Definition re_suffix_match (s suffix : string) : bool :=
  endswith s suffix || endswith s (suffix +:+ LF).

(** [sep.join(l)] for the empty separator. *)
Definition join (l : list string) : string := foldr String.app "" l.

(** [s.split()]: the maximal runs of characters that are not whitespace. *)
Fixpoint split_go (cur : option string) (s : string) : list string :=
  match s with
  | EmptyString => option_list (String.rev <$> cur)
  | String c s' =>
      if isspace c
      then option_list (String.rev <$> cur) ++ split_go None s'
      else split_go (Some (String c (default "" cur))) s'
  end.
Definition split : string -> list string := split_go None.

(** Every character of [s] is whitespace. *)
Fixpoint all_space (s : string) : bool :=
  match s with
  | EmptyString => true
  | String c s' => isspace c && all_space s'
  end.

(** The first and the last character of a string, when it has one. *)
Definition first_char (s : string) : option ascii :=
  match s with EmptyString => None | String c _ => Some c end.
Fixpoint last_char (s : string) : option ascii :=
  match s with
  | EmptyString => None
  | String c EmptyString => Some c
  | String _ s' => last_char s'
  end.

End PyStr.

(** ** The parse tree of BeautifulSoup *)

Module Soup.

(** A node of the tree: an element with its attribute dictionary and its
    children, a text node, or a comment (which [get_text] leaves out). *)
Inductive Node : Type :=
| Tag (name : string) (attrs : gmap string string) (contents : list Node)
| NavigableString (s : string)
| Comment (s : string).

(** The [BeautifulSoup] object: the top-level nodes of the document. *)
Definition Document : Type := list Node.

(** [tag.descendants]: every node below, in document order. *)
Fixpoint descendants (n : Node) : list Node :=
  match n with
  | Tag _ _ cs =>
      (fix go (l : list Node) : list Node :=
         match l with
         | [] => []
         | c :: l' => c :: descendants c ++ go l'
         end) cs
  | _ => []
  end.

Definition soup_descendants (doc : Document) : list Node :=
  flat_map (fun c => c :: descendants c) doc.

(** [tag._all_strings()]: the text nodes below, in document order. *)
Fixpoint all_strings (n : Node) : list string :=
  match n with
  | Tag _ _ cs =>
      (fix go (l : list Node) : list string :=
         match l with
         | [] => []
         | c :: l' => all_strings c ++ go l'
         end) cs
  | NavigableString s => [s]
  | Comment _ => []
  end.

(** [tag.get_text()] *)
Definition get_text (n : Node) : string := PyStr.join (all_strings n).

(** [tag.get_text(strip=True)]: every text node is stripped, and the ones
    that become empty are dropped. *)
Definition get_text_strip (n : Node) : string :=
  PyStr.join
    (filter (fun s => s <> "") (PyStr.strip <$> all_strings n)).

(** [tag.get(key)] *)
Definition get (n : Node) (key : string) : option string :=
  match n with
  | Tag _ attrs _ => attrs !! key
  | _ => None
  end.

Definition is_tag (name : string) (n : Node) : bool :=
  match n with
  | Tag nm _ _ => String.eqb nm name
  | _ => false
  end.

(** [soup.find(name)]: the first element of that name, or [None]. *)
Definition find (name : string) (doc : Document) : option Node :=
  head (filter (fun n => is_tag name n = true) (soup_descendants doc)).

(** The two forms of CSS selector the script uses. *)
Inductive Selector : Type :=
| TagClass (name cls : string)             (* name.cls *)
| TagAttrSuffix (name attr val : string).  (* name[attr$="val"] *)

Definition has_class (cls : string) (n : Node) : bool :=
  match get n "class" with
  | Some v => bool_decide (cls ∈ PyStr.split v)
  | None => false
  end.

(** The test of [[attr$="val"]]: the selector library compiles it to the
    pattern [.*?val$] and matches the value of the attribute against it. *)
Definition attr_suffix_match (attr val : string) (n : Node) : bool :=
  match get n attr with
  | Some v => PyStr.re_suffix_match v val
  | None => false
  end.

Definition matches (sel : Selector) (n : Node) : bool :=
  match sel with
  | TagClass name cls => is_tag name n && has_class cls n
  | TagAttrSuffix name attr val => is_tag name n && attr_suffix_match attr val n
  end.

(** [soup.select(selector)]: the matching elements in document order. *)
Definition select (sel : Selector) (doc : Document) : list Node :=
  filter (fun n => matches sel n = true) (soup_descendants doc).

End Soup.

(** ** Observable behaviour: a trace monad with exceptions *)

(** What a run does that the outside can see, in the order it happens: an
    HTTP GET with its timeout, and text written to standard output. *)
Inductive Event : Type :=
| Get (url : string) (timeout : Z)
| Write (s : string).

(** The exceptions the script can meet.  None of them is caught anywhere. *)
Inductive Exn : Type :=
| RequestException          (* requests: connection error, timeout, ... *)
| HTTPError (status : Z)    (* requests: raise_for_status *)
| AttributeError            (* None.get_text *)
| SystemExit (code : Z).    (* sys.exit *)

Inductive Outcome (A : Type) : Type :=
| Ok (a : A)
| Raise (e : Exn).
Arguments Ok {A} a.
Arguments Raise {A} e.

(** A computation: the events it produced and how it ended. *)
Definition M (A : Type) : Type := list Event * Outcome A.

Definition ret {A} (a : A) : M A := ([], Ok a).
Definition raise {A} (e : Exn) : M A := ([], Raise e).
Definition bind {A B} (m : M A) (f : A -> M B) : M B :=
  match m with
  | (t, Ok a) => let '(t', r) := f a in (t ++ t', r)
  | (t, Raise e) => (t, Raise e)
  end.

Notation "x <- m ;; k" := (bind m (fun x => k))
  (at level 100, m at next level, right associativity).
Notation "m ;;; k" := (bind m (fun _ => k))
  (at level 100, right associativity).

(** [for x in l: body(x)] *)
Fixpoint for_each {A} (l : list A) (body : A -> M unit) : M unit :=
  match l with
  | [] => ret tt
  | x :: l' => body x ;;; for_each l' body
  end.

Definition trace {A} (m : M A) : list Event := fst m.
Definition outcome {A} (m : M A) : Outcome A := snd m.

(** The events of a loop when every iteration ends normally. *)
Definition loop_trace {A} (l : list A) (body : A -> M unit) : list Event :=
  flat_map (fun x => trace (body x)) l.

(** Standard output: the written texts, one after the other. *)
Fixpoint stdout (t : list Event) : string :=
  match t with
  | [] => ""
  | Write s :: t' => s +:+ stdout t'
  | Get _ _ :: t' => stdout t'
  end.

(** The GET requests of a trace, in order. *)
Fixpoint requests (t : list Event) : list (string * Z) :=
  match t with
  | [] => []
  | Get u tm :: t' => (u, tm) :: requests t'
  | Write _ :: t' => requests t'
  end.

(** The exit status of the interpreter: 0 when the script runs to its end,
    the code of [sys.exit], 1 for any other exception that reaches the top. *)
Definition exit_status {A} (o : Outcome A) : Z :=
  match o with
  | Ok _ => 0
  | Raise (SystemExit c) => c
  | Raise _ => 1
  end.

(** ** The script *)

(** The response of [requests.get]: its status code and its body. *)
Record Response : Type := { status_code : Z; text : string }.

Definition BASE_URL : string :=
  "https://www.linuxfromscratch.org/blfs/view/stable".

Definition usage : string :=
  "Usage: fetch_blfs_sections.py CHAPTER [CHAPTER ...]".

Module Script.
Section Env.
Import PyStr (LF).
(** The network: the response of the server to a GET of each URL, [None]
    when the request fails below HTTP. *)
Variable network : string -> option Response.
(** [BeautifulSoup(text, "html.parser")] *)
Variable BeautifulSoup : string -> Soup.Document.

(** [requests.get(url, timeout=...)] *)
Definition requests_get (url : string) (timeout : Z) : M Response :=
  ([Get url timeout],
   match network url with
   | Some r => Ok r
   | None => Raise RequestException
   end).

(** [r.raise_for_status()]: [HTTPError] for a client error (4xx) or a server
    error (5xx) status, nothing for any other status. *)
Definition raise_for_status (r : Response) : M unit :=
  if (400 <=? status_code r) && (status_code r <? 600)
  then raise (HTTPError (status_code r))
  else ret tt.

(** [print(s)] *)
Definition print (s : string) : M unit := ([Write (s +:+ LF)], Ok tt).

(** [sys.exit(code)] *)
Definition sys_exit (code : Z) : M unit := raise (SystemExit code).

(** [x.get_text(strip=True)] where [x] is what [find] returned. *)
Definition get_text_strip_of (x : option Soup.Node) : M string :=
  match x with
  | Some n => ret (Soup.get_text_strip n)
  | None => raise AttributeError
  end.

(** An f-string field: [None] is formatted as its name. *)
Definition fmt (x : option string) : string :=
  match x with Some s => s | None => "None" end.

Definition fetch_package (url : string) : M unit :=
  r <- requests_get url 30 ;;
  raise_for_status r ;;;
  let soup := BeautifulSoup (text r) in
  title <- get_text_strip_of (Soup.find "h1" soup) ;;
  print ("# " +:+ title +:+ LF) ;;;
  for_each (Soup.select (Soup.TagClass "pre" "userinput") soup)
    (fun pre =>
       print (PyStr.strip (Soup.get_text pre)) ;;;
       print "").

Definition fetch_chapter (ch : string) : M unit :=
  let index_url := BASE_URL +:+ "/" +:+ ch +:+ "/" in
  r <- requests_get index_url 30 ;;
  raise_for_status r ;;;
  let soup := BeautifulSoup (text r) in
  for_each (Soup.select (Soup.TagAttrSuffix "a" "href" ".html") soup)
    (fun a =>
       let href := Soup.get a "href" in
       if bool_decide (href = Some "index.html")
       then ret tt
       else fetch_package (BASE_URL +:+ "/" +:+ ch +:+ "/" +:+ fmt href)).

(** The [if __name__ == "__main__":] block; [argv] is [sys.argv]. *)
Definition main (argv : list string) : M unit :=
  if (length argv <? 2)%nat
  then print usage ;;; sys_exit 1
  else for_each (drop 1 argv) fetch_chapter.

End Env.
End Script.

(** ** The vocabulary of the properties *)

Module Spec.
Import PyStr Soup.

(** [p] is [s] without its leading and trailing whitespace: a substring of
    [s] between two runs of whitespace, that neither starts nor ends with a
    whitespace character. *)
Definition stripped_of (s p : string) : Prop :=
  exists l r,
    s = l +:+ p +:+ r /\ all_space l = true /\ all_space r = true
    /\ (forall c, first_char p = Some c -> isspace c = false)
    /\ (forall c, last_char p = Some c -> isspace c = false).

(** The [href] of a node when it is an anchor that has one. *)
Definition anchor_href (n : Node) : option string :=
  if is_tag "a" n then get n "href" else None.

(** The [href]s of the anchors of a document, in document order. *)
Definition hrefs (doc : Document) : list string :=
  omap anchor_href (soup_descendants doc).

(** A link to a package page: the selector matches it ([.html] at its end,
    or before one final line feed) and it is not [index.html]. *)
Definition is_package_href (h : string) : Prop :=
  re_suffix_match h ".html" = true /\ h <> "index.html".

#[global] Instance is_package_href_dec h : Decision (is_package_href h) :=
  and_dec _ _.

Definition package_links (doc : Document) : list string :=
  filter is_package_href (hrefs doc).

(** A package link as C1 words it: the [href] ends in [.html] and is not
    [index.html]. *)
Definition ends_in_html (h : string) : Prop :=
  endswith h ".html" = true /\ h <> "index.html".

#[global] Instance ends_in_html_dec h : Decision (ends_in_html h) :=
  and_dec _ _.

Definition index_url (ch : string) : string :=
  BASE_URL +:+ "/" +:+ ch +:+ "/".

Definition package_url (ch href : string) : string :=
  BASE_URL +:+ "/" +:+ ch +:+ "/" +:+ href.

(** The status for which [raise_for_status] raises. *)
Definition error_status (r : Response) : bool :=
  (400 <=? status_code r) && (status_code r <? 600).

(** The two selectors of the script. *)
Definition user_input : Selector := TagClass "pre" "userinput".

Definition html_anchor : Selector := TagAttrSuffix "a" "href" ".html".

(** The write of the title line and (with [print]'s own line feed) of the
    blank line after it. *)
Definition title_write (h : Node) : Event :=
  Write ("# " +:+ get_text_strip h +:+ LF +:+ LF).

(** The two writes of one command block. *)
Definition block_writes (pre : Node) : list Event :=
  [Write (strip (get_text pre) +:+ LF); Write LF].

Definition exn_of {A} (o : Outcome A) : option Exn :=
  match o with Ok _ => None | Raise e => Some e end.

(** Two servers answer alike on every URL requested in [t]. *)
Definition agree_on (net1 net2 : string -> option Response) (t : list Event)
  : Prop :=
  forall u tm, (u, tm) ∈ requests t -> net1 u = net2 u.

(** Two runs see the same world on the requests of [t]: the two servers
    answer every URL requested in [t] alike, and the two parsers read every
    body served for such a URL alike. *)
Definition same_view (net1 net2 : string -> option Response)
    (bs1 bs2 : string -> Document) (t : list Event) : Prop :=
  forall u tm,
    (u, tm) ∈ requests t ->
    net1 u = net2 u
    /\ forall r, net1 u = Some r -> error_status r = false ->
                 bs1 (text r) = bs2 (text r).

Section Env.
Variable network : string -> option Response.
Variable BeautifulSoup : string -> Document.

(** The server answers [url] with [r], and [r] passes [raise_for_status]. *)
Definition served (url : string) (r : Response) : Prop :=
  network url = Some r /\ error_status r = false.

(** The GET of the index page and the check of its status. *)
Definition fetch_index (ch : string) : M unit :=
  r <- Script.requests_get network (index_url ch) 30 ;;
  Script.raise_for_status r.

(** The package links of the index of a chapter: those of the page the
    server sends, none when the index is not served. *)
Definition chapter_links (ch : string) : list string :=
  match network (index_url ch) with
  | Some r =>
      if error_status r then [] else package_links (BeautifulSoup (text r))
  | None => []
  end.

Definition chapter_pages (ch : string) : list string :=
  package_url ch <$> chapter_links ch.

(** A GET answered with an error status is the last event of [m], and [m]
    ends in the [HTTPError] of that status. *)
Definition aborts_on_error {A} (m : M A) : Prop :=
  forall pre u tm post r,
    trace m = pre ++ Get u tm :: post ->
    network u = Some r -> error_status r = true ->
    post = [] /\ exn_of (outcome m) = Some (HTTPError (status_code r)).

(** C4 as it is stated: a page answered with a status that is not 2xx is
    the last one requested, and the run exits with a status other than 0. *)
Definition non_2xx_aborts : Prop :=
  forall argv pre u tm post r,
    trace (Script.main network BeautifulSoup argv) = pre ++ Get u tm :: post ->
    network u = Some r ->
    ~ (200 <= status_code r < 300) ->
    post = []
    /\ exit_status (outcome (Script.main network BeautifulSoup argv)) <> 0.


(** The exception a GET of [u] ends in, when it does: the request fails
    below HTTP, or the status of the answer is an error status. *)
Definition fatal (u : string) : option Exn :=
  match network u with
  | None => Some RequestException
  | Some r =>
      if error_status r then Some (HTTPError (status_code r)) else None
  end.

(** A GET that ends in an exception is the last event of [m], and [m] ends
    in that exception. *)
Definition stops_at_fatal {A} (m : M A) : Prop :=
  forall pre u tm post e,
    trace m = pre ++ Get u tm :: post ->
    fatal u = Some e ->
    post = [] /\ exn_of (outcome m) = Some e.

(** Why a walk whose last request was [u] raised [e]: no answer, an error
    status, or a page without heading. *)
Definition cause (u : string) (e : Exn) : Prop :=
  (network u = None /\ e = RequestException)
  \/ (exists r, network u = Some r /\ 400 <= status_code r < 600
                /\ e = HTTPError (status_code r))
  \/ (exists r, served u r /\ find "h1" (BeautifulSoup (text r)) = None
                /\ e = AttributeError).

(** When [m] raises, its last event is a GET that explains the exception. *)
Definition diagnosed {A} (m : M A) : Prop :=
  forall e, outcome m = Raise e ->
            exists pre u, trace m = pre ++ [Get u 30] /\ cause u e.

End Env.
End Spec.

(** ** Test data: a small site *)

Module Demo.
Import Soup.

Definition anchor (href label : string) : Node :=
  Tag "a" {[ "href" := href ]} [NavigableString label].

Definition userinput (cmd : string) : Node :=
  Tag "pre" {[ "class" := "userinput" ]} [Tag "kbd" ∅ [NavigableString cmd]].

(** An index with the links a.html, b.html and index.html. *)
Definition index_doc : Document :=
  [Tag "ul" ∅
     [Tag "li" ∅ [anchor "a.html" "A"];
      Tag "li" ∅ [anchor "b.html" "B"];
      Tag "li" ∅ [anchor "index.html" "Up"]]].

(** A package page with a heading and two command blocks. *)
Definition foo_doc : Document :=
  [Tag "h1" ∅ [NavigableString " Foo-1.0 "];
   Tag "p" ∅ [NavigableString "Build it:"];
   userinput "make";
   userinput (PyStr.LF +:+ "make install" +:+ PyStr.LF)].

(** A package page with a heading and no command block. *)
Definition bar_doc : Document :=
  [Tag "h1" ∅ [NavigableString "Bar-2"]; Tag "p" ∅ [NavigableString "Nothing to do."]].

(** A page without a heading. *)
Definition bare_doc : Document := [Tag "p" ∅ [NavigableString "moved"]].

(** The parser on the bodies the test servers send. *)
Definition parser (body : string) : Document :=
  if String.eqb body "INDEX" then index_doc
  else if String.eqb body "FOO" then foo_doc
  else if String.eqb body "BAR" then bar_doc
  else if String.eqb body "BARE" then bare_doc
  else [].

Fixpoint serve (table : list (string * Response)) (url : string)
  : option Response :=
  match table with
  | [] => None
  | (u, r) :: table' => if String.eqb u url then Some r else serve table' url
  end.

Definition url (path : string) : string := BASE_URL +:+ "/" +:+ path.

Definition ok (body : string) : Response :=
  {| status_code := 200; text := body |}.
Definition foo_h1 : Node := Tag "h1" ∅ [NavigableString " Foo-1.0 "].
Definition bar_h1 : Node := Tag "h1" ∅ [NavigableString "Bar-2"].

(** Chapter "x" with the packages a (Foo) and b (Bar); chapter "y" is
    empty. *)
Definition site : string -> option Response :=
  serve [(url "x/", {| status_code := 200; text := "INDEX" |});
         (url "x/a.html", {| status_code := 200; text := "FOO" |});
         (url "x/b.html", {| status_code := 200; text := "BAR" |});
         (url "y/", {| status_code := 200; text := "" |})].

(** The same site where the page of b has no heading. *)
Definition bare_site : string -> option Response :=
  serve [(url "x/", {| status_code := 200; text := "INDEX" |});
         (url "x/a.html", {| status_code := 200; text := "FOO" |});
         (url "x/b.html", {| status_code := 200; text := "BARE" |});
         (url "y/", {| status_code := 200; text := "" |})].

(** The same site where the page of a is not found. *)
Definition lost_site : string -> option Response :=
  serve [(url "x/", {| status_code := 200; text := "INDEX" |});
         (url "x/a.html", {| status_code := 404; text := "" |});
         (url "x/b.html", {| status_code := 200; text := "BAR" |});
         (url "y/", {| status_code := 200; text := "" |})].

(** A site that answers the index of chapter "x" with 300 Multiple Choices
    and an empty body. *)
Definition choices_site : string -> option Response :=
  serve [(url "x/", {| status_code := 300; text := "" |});
         (url "y/", {| status_code := 200; text := "" |})].

(** An index whose links are a page in a subdirectory, the index of that
    subdirectory, a stylesheet and the index itself. *)
Definition nested_index_doc : Document :=
  [anchor "sub/a.html" "A"; anchor "sub/index.html" "Sub";
   anchor "style.css" "Style"; anchor "index.html" "Up"].

(** An index without any link to a package page. *)
Definition linkless_doc : Document :=
  [Tag "p" ∅ [NavigableString "Empty chapter"];
   anchor "index.html" "Up"; anchor "../toc.htm" "Contents";
   Tag "a" {[ "name" := "top.html" ]} []].

(** A page with two level-1 headings, the second one inside a block. *)
Definition twin_doc : Document :=
  [Tag "div" ∅ [Tag "h1" ∅ [NavigableString "First"]];
   Tag "div" ∅ [Tag "h1" ∅ [NavigableString "Second"]; userinput "true"]].

Definition parser2 (body : string) : Document :=
  if String.eqb body "NESTED" then nested_index_doc
  else if String.eqb body "LINKLESS" then linkless_doc
  else if String.eqb body "TWIN" then twin_doc
  else parser body.

(** Chapter "n" links into a subdirectory, chapter "e" has no package,
    chapter "t" has one page with two headings. *)
Definition site2 : string -> option Response :=
  serve [(url "n/", ok "NESTED");
         (url "n/sub/a.html", ok "BAR");
         (url "n/sub/index.html", ok "TWIN");
         (url "e/", ok "LINKLESS");
         (url "x/", ok "INDEX");
         (url "x/a.html", ok "FOO");
         (url "x/b.html", ok "BAR")].

(** [site2] with another answer for the index of chapter "e". *)
Definition site2' : string -> option Response :=
  serve [(url "e/", ok "INDEX");
         (url "n/", ok "NESTED");
         (url "n/sub/a.html", ok "BAR");
         (url "n/sub/index.html", ok "TWIN");
         (url "x/", ok "INDEX");
         (url "x/a.html", ok "FOO");
         (url "x/b.html", ok "BAR")].



(** A parser that differs from [parser2] on the body TWIN only. *)
Definition parser2' (body : string) : Document :=
  if String.eqb body "TWIN" then [] else parser2 body.

End Demo.

(** ** Strings: what [strip] and [endswith] compute *)

Module PyStrFacts.
Import PyStr Spec.

Lemma app_cons c s t : String c s +:+ t = String c (s +:+ t).
Proof. reflexivity. Qed.

Lemma app_nil_l s : "" +:+ s = s.
Proof. reflexivity. Qed.

Lemma app_nil_r s : s +:+ "" = s.
Proof. induction s as [|c s IH]; [done|]. by rewrite app_cons, IH. Qed.

Lemma app_assoc s t u : (s +:+ t) +:+ u = s +:+ t +:+ u.
Proof. induction s as [|c s IH]; [done|]. by rewrite !app_cons, IH. Qed.

Lemma lstrip_spec s :
  exists l, s = l +:+ lstrip s /\ all_space l = true
            /\ forall c, first_char (lstrip s) = Some c -> isspace c = false.
Proof.
  induction s as [|c s (l & Hs & Hl & Hc)]; simpl.
  - exists "". done.
  - destruct (isspace c) eqn:E.
    + exists (String c l). rewrite app_cons, <- Hs. simpl. rewrite E. done.
    + exists "". repeat split; [done..|]. simpl. congruence.
Qed.

Lemma rstrip_spec s :
  exists r, s = rstrip s +:+ r /\ all_space r = true
            /\ forall c, last_char (rstrip s) = Some c -> isspace c = false.
Proof.
  induction s as [|c s (r & Hs & Hr & Hc)]; simpl.
  - exists "". done.
  - destruct (rstrip s) as [|c' s'] eqn:E.
    + rewrite app_nil_l in Hs. subst r.
      destruct (isspace c) eqn:Ec.
      * exists (String c s). simpl. rewrite Ec. done.
      * exists s. repeat split; [done..|]. simpl. congruence.
    + exists r. rewrite app_cons, <- Hs. repeat split; [done..|].
      intros c0 H0. apply Hc. exact H0.
Qed.

Lemma first_char_app s t c : first_char (s +:+ t) = Some c -> s <> "" ->
  first_char s = Some c.
Proof. destruct s; [done|]. by rewrite app_cons. Qed.

Theorem strip_spec s : stripped_of s (strip s).
Proof.
  unfold strip.
  destruct (lstrip_spec s) as (l & Hs & Hl & Hc).
  destruct (rstrip_spec (lstrip s)) as (r & Hs' & Hr & Hc').
  exists l, r. repeat split; [congruence|done..| |done].
  intros c H. apply Hc. rewrite Hs'.
  destruct (rstrip (lstrip s)); [done|]. by rewrite app_cons.
Qed.

Lemma all_space_lstrip r : all_space r = true -> lstrip r = "".
Proof.
  induction r as [|c r IH]; [done|]. simpl.
  intros [Hc Hr]%andb_true_iff. rewrite Hc. by apply IH.
Qed.

Lemma all_space_rstrip r : all_space r = true -> rstrip r = "".
Proof.
  induction r as [|c r IH]; [done|]. simpl.
  intros [Hc Hr]%andb_true_iff. by rewrite (IH Hr), Hc.
Qed.

Lemma lstrip_app_space l s : all_space l = true -> lstrip (l +:+ s) = lstrip s.
Proof.
  induction l as [|c l IH]; [done|]. rewrite app_cons. simpl.
  intros [Hc Hl]%andb_true_iff. rewrite Hc. by apply IH.
Qed.

Lemma rstrip_app_space p r : all_space r = true -> rstrip (p +:+ r) = rstrip p.
Proof.
  intros Hr. induction p as [|c p IH].
  - rewrite app_nil_l. by apply all_space_rstrip.
  - rewrite app_cons. simpl. by rewrite IH.
Qed.

Lemma rstrip_fixed p :
  (forall c, last_char p = Some c -> isspace c = false) -> rstrip p = p.
Proof.
  induction p as [|c p IH]; [done|]. intros H. simpl.
  destruct p as [|c' p].
  - simpl. by rewrite (H c).
  - rewrite IH; [done|]. intros c0 H0. by apply H.
Qed.

(** The relation has one solution: what [strip] computes. *)
Theorem stripped_of_unique s p : stripped_of s p -> p = strip s.
Proof.
  intros (l & r & -> & Hl & Hr & Hfirst & Hlast). unfold strip.
  rewrite lstrip_app_space by done. destruct p as [|c p].
  - rewrite app_nil_l, all_space_lstrip by done. done.
  - rewrite app_cons. cbn [lstrip]. rewrite (Hfirst c) by done.
    rewrite <- app_cons, rstrip_app_space by done. by rewrite rstrip_fixed.
Qed.

Lemma endswith_spec s suffix :
  endswith s suffix = true <-> exists p, s = p +:+ suffix.
Proof.
  induction s as [|c s IH]; cbn [endswith].
  - rewrite orb_false_r, String.eqb_eq. split.
    + intros ->. by exists "".
    + intros [[|] H]; [done|]. by rewrite app_cons in H.
  - rewrite orb_true_iff, String.eqb_eq, IH. split.
    + intros [<-|[p ->]]; [by exists ""|]. by exists (String c p).
    + intros [[|c' p] H]; [by left|]. rewrite app_cons in H.
      injection H as -> ->. right. by exists p.
Qed.

(** What the pattern of a suffix selector accepts. *)
Lemma re_suffix_match_spec s suffix :
  re_suffix_match s suffix = true <->
  exists p, s = p +:+ suffix \/ s = p +:+ suffix +:+ LF.
Proof.
  unfold re_suffix_match. rewrite orb_true_iff, !endswith_spec. split.
  - intros [[p ->]|[p ->]]; exists p; auto.
  - intros [p [->| ->]]; [left|right]; by exists p.
Qed.

End PyStrFacts.

(** ** The monad: traces of sequences and loops *)

Section MonadFacts.
Context {A : Type}.
Implicit Types (l : list A) (body : A -> M unit).

Lemma requests_app t1 t2 : requests (t1 ++ t2) = requests t1 ++ requests t2.
Proof.
  induction t1 as [|[u tm|s] t1 IH]; simpl; [done| |done].
  by rewrite IH.
Qed.

Lemma stdout_app t1 t2 : stdout (t1 ++ t2) = stdout t1 +:+ stdout t2.
Proof.
  induction t1 as [|[u tm|s] t1 IH]; simpl; [done|done|].
  by rewrite IH, PyStrFacts.app_assoc.
Qed.

Lemma bind_eq {B C} (m : M B) (f : B -> M C) :
  bind m f =
  match outcome m with
  | Ok a => (trace m ++ trace (f a), outcome (f a))
  | Raise e => (trace m, Raise e)
  end.
Proof. destruct m as [t [a|e]]; simpl; [|done]. by destruct (f a). Qed.

Lemma for_each_cons x l body :
  for_each (x :: l) body = (body x ;;; for_each l body).
Proof. done. Qed.

Lemma for_each_fmap {B} (f : B -> A) (k : list B) body :
  for_each (f <$> k) body = for_each k (fun x => body (f x)).
Proof.
  induction k as [|x k IH]; [done|].
  cbn [fmap list_fmap]. rewrite !for_each_cons. cbn [fmap] in IH.
  by rewrite IH.
Qed.

(** A loop whose iterations all end normally runs them all, in order. *)
Lemma for_each_ok l body :
  Forall (fun x => outcome (body x) = Ok tt) l ->
  for_each l body = (loop_trace l body, Ok tt).
Proof.
  induction 1 as [|x l Hx _ IH]; [done|].
  rewrite for_each_cons, bind_eq, Hx, IH. done.
Qed.

(** The first iteration that raises ends the loop: nothing runs after it. *)
Lemma for_each_raise l1 x l2 body e :
  Forall (fun x => outcome (body x) = Ok tt) l1 ->
  outcome (body x) = Raise e ->
  for_each (l1 ++ x :: l2) body
  = (loop_trace l1 body ++ trace (body x), Raise e).
Proof.
  intros H Hx. induction H as [|y l1 Hy _ IH]; simpl.
  - by rewrite bind_eq, Hx.
  - rewrite bind_eq, Hy, IH. simpl. by rewrite app_assoc.
Qed.

(** In every case the events of a loop are an initial part of the events
    of its iterations, taken in order. *)
Lemma for_each_prefix l body :
  trace (for_each l body) `prefix_of` loop_trace l body.
Proof.
  induction l as [|x l IH]; [done|].
  rewrite for_each_cons, bind_eq. unfold loop_trace. simpl.
  destruct (outcome (body x)) as [[]|e]; simpl.
  - by apply prefix_app.
  - by apply prefix_app_r.
Qed.

(** A loop ends normally exactly when all its iterations do. *)
Lemma for_each_outcome_ok l body :
  outcome (for_each l body) = Ok tt ->
  Forall (fun x => outcome (body x) = Ok tt) l.
Proof.
  induction l as [|x l IH]; [done|].
  rewrite for_each_cons, bind_eq.
  destruct (outcome (body x)) as [[]|e] eqn:E; simpl; [|done].
  intros H. constructor; [done|]. by apply IH.
Qed.

(** Either all iterations end normally, or there is a first one that
    raises. *)
Lemma for_each_split l body :
  Forall (fun x => outcome (body x) = Ok tt) l
  \/ exists l1 x l2 e,
      l = l1 ++ x :: l2
      /\ Forall (fun x => outcome (body x) = Ok tt) l1
      /\ outcome (body x) = Raise e.
Proof.
  induction l as [|x l [IH|(l1 & y & l2 & e & -> & H1 & Hy)]].
  - by left.
  - destruct (outcome (body x)) as [[]|e] eqn:E.
    + left. by constructor.
    + right. exists [], x, l, e. done.
  - destruct (outcome (body x)) as [[]|e'] eqn:E.
    + right. exists (x :: l1), y, l2, e. repeat split; [|done]. by constructor.
    + right. exists [], x, (l1 ++ y :: l2), e'. done.
Qed.

End MonadFacts.

(** ** The script: what each part does *)

Section ScriptFacts.
Import PyStr Soup Spec.
Variable network : string -> option Response.
Variable BeautifulSoup : string -> Document.

Local Abbreviation fetch_package := (Script.fetch_package network BeautifulSoup).
Local Abbreviation fetch_chapter := (Script.fetch_chapter network BeautifulSoup).
Local Abbreviation main := (Script.main network BeautifulSoup).
Local Abbreviation served := (Spec.served network).
Local Abbreviation fetch_index := (Spec.fetch_index network).
Local Abbreviation chapter_links := (Spec.chapter_links network BeautifulSoup).
Local Abbreviation chapter_pages := (Spec.chapter_pages network BeautifulSoup).
Local Abbreviation aborts_on_error := (Spec.aborts_on_error network).

Lemma bind_ret_l {A B} (a : A) (f : A -> M B) : bind (ret a) f = f a.
Proof. unfold bind, ret. by destruct (f a). Qed.

Lemma print_loop_ok (l : list Node) :
  for_each l (fun pre => Script.print (strip (get_text pre)) ;;; Script.print "")
  = (flat_map block_writes l, Ok tt).
Proof.
  rewrite for_each_ok; [done|]. apply Forall_forall. by intros.
Qed.

(** [fetch_package], case by case. *)
Lemma fetch_package_eq url :
  fetch_package url =
  match network url with
  | None => ([Get url 30], Raise RequestException)
  | Some r =>
      if error_status r
      then ([Get url 30], Raise (HTTPError (status_code r)))
      else
        let soup := BeautifulSoup (text r) in
        match find "h1" soup with
        | None => ([Get url 30], Raise AttributeError)
        | Some h =>
            (Get url 30 :: title_write h
               :: flat_map block_writes (select user_input soup),
             Ok tt)
        end
  end.
Proof.
  unfold Script.fetch_package, Script.requests_get, Script.raise_for_status, error_status.
  destruct (network url) as [r|]; [|done]. cbn [bind].
  destruct (_ && _); [done|]. cbn [bind ret app].
  destruct (find "h1" _) as [h|]; [|done]. cbn [Script.get_text_strip_of bind ret app].
  rewrite print_loop_ok. unfold title_write, Script.print.
  by rewrite !PyStrFacts.app_assoc.
Qed.

(** A page fetch ends normally exactly when the page is served and has a
    heading. *)
Lemma fetch_package_ok url :
  outcome (fetch_package url) = Ok tt <->
  exists r h, served url r /\ find "h1" (BeautifulSoup (text r)) = Some h.
Proof.
  rewrite fetch_package_eq. unfold Spec.served. split.
  - destruct (network url) as [r|]; [|done].
    destruct (error_status r) eqn:E; [done|]. cbn zeta.
    destruct (find "h1" _) as [h|] eqn:F; [|done]. intros _. by exists r, h.
  - intros (r & h & [-> ->] & H). cbn zeta. by rewrite H.
Qed.

(** The events of a page that is served and has a heading. *)
Lemma fetch_package_served url r h :
  served url r ->
  find "h1" (BeautifulSoup (text r)) = Some h ->
  fetch_package url
  = (Get url 30 :: title_write h
       :: flat_map block_writes (select user_input (BeautifulSoup (text r))),
     Ok tt).
Proof.
  intros [Hn He] Hh. rewrite fetch_package_eq, Hn, He. cbn zeta. by rewrite Hh.
Qed.

(** Without a chapter identifier: the usage message, then [sys.exit(1)]. *)
Lemma main_no_chapter argv :
  drop 1 argv = [] ->
  main argv = ([Write (usage +:+ LF)], Raise (SystemExit 1)).
Proof.
  intros H. unfold Script.main.
  by destruct argv as [|a [|b l]].
Qed.

Lemma stdout_blocks (l : list Node) :
  stdout (flat_map block_writes l)
  = join ((fun pre => strip (get_text pre) +:+ LF +:+ LF) <$> l).
Proof.
  induction l as [|pre l IH]; [done|].
  cbn [flat_map fmap list_fmap join foldr]. rewrite stdout_app, IH.
  cbn [block_writes stdout].
  by rewrite PyStrFacts.app_nil_r, !PyStrFacts.app_assoc.
Qed.

(** C2: a package page that is served, with first level-1 heading [h] and
    user-input blocks [blocks] in document order, is printed as the line
    [# T], a blank line, and for each block its stripped text and a blank
    line; the command blocks printed are, one for one and in order, the
    preformatted nodes of that page. *)
Theorem fetch_package_output url r h :
  served url r ->
  find "h1" (BeautifulSoup (text r)) = Some h ->
  let T := get_text_strip h in
  let blocks := select user_input (BeautifulSoup (text r)) in
  outcome (fetch_package url) = Ok tt
  /\ stdout (trace (fetch_package url))
     = "# " +:+ T +:+ LF +:+ LF
       +:+ join ((fun pre => strip (get_text pre) +:+ LF +:+ LF) <$> blocks)
  /\ trace (fetch_package url)
     = Get url 30 :: Write ("# " +:+ T +:+ LF +:+ LF)
         :: flat_map (fun pre => [Write (strip (get_text pre) +:+ LF); Write LF])
              blocks.
Proof.
  intros Hs Hh T blocks. rewrite (fetch_package_served url r h Hs Hh).
  cbn [outcome trace fst snd stdout title_write].
  split; [done|]. split; [|done].
  rewrite stdout_blocks. by rewrite !PyStrFacts.app_assoc.
Qed.

(** C9: a served package page with a heading and no user-input block is
    printed as the title line and one blank line, and the fetch ends
    normally. *)
Theorem fetch_package_no_block url r h :
  served url r ->
  find "h1" (BeautifulSoup (text r)) = Some h ->
  select user_input (BeautifulSoup (text r)) = [] ->
  outcome (fetch_package url) = Ok tt
  /\ stdout (trace (fetch_package url)) = "# " +:+ get_text_strip h +:+ LF +:+ LF
  /\ trace (fetch_package url)
     = [Get url 30; Write ("# " +:+ get_text_strip h +:+ LF +:+ LF)].
Proof.
  intros Hs Hh Hb. rewrite (fetch_package_served url r h Hs Hh), Hb.
  cbn [flat_map outcome trace fst snd stdout title_write].
  by rewrite PyStrFacts.app_nil_r.
Qed.

(** C5: the text printed for a user-input block is the text of the block
    without its leading and trailing whitespace, the rest kept as it is. *)
Theorem command_blocks_stripped url r h :
  served url r ->
  find "h1" (BeautifulSoup (text r)) = Some h ->
  exists printed : list string,
    trace (fetch_package url)
    = Get url 30 :: title_write h
        :: flat_map (fun p => [Write (p +:+ LF); Write LF]) printed
    /\ Forall2 (fun pre p => stripped_of (get_text pre) p)
         (select user_input (BeautifulSoup (text r))) printed.
Proof.
  intros Hs Hh. rewrite (fetch_package_served url r h Hs Hh). cbn [trace fst].
  generalize (select user_input (BeautifulSoup (text r))) as blocks.
  intros blocks. exists ((fun pre => strip (get_text pre)) <$> blocks). split.
  - do 2 f_equal. induction blocks as [|pre blocks IH]; [done|].
    cbn [flat_map fmap list_fmap]. by rewrite IH.
  - induction blocks as [|pre blocks IH]; constructor; [|done].
    apply PyStrFacts.strip_spec.
Qed.

(** C3: without a chapter identifier the script prints the usage message,
    exits with status 1 and requests nothing. *)
Theorem main_usage argv :
  drop 1 argv = [] ->
  stdout (trace (main argv)) = usage +:+ LF
  /\ exit_status (outcome (main argv)) = 1
  /\ requests (trace (main argv)) = [].
Proof.
  intros H. rewrite (main_no_chapter argv H).
  cbn [trace outcome fst snd stdout requests exit_status].
  by rewrite PyStrFacts.app_nil_r.
Qed.

(** *** The chapter walker *)

(** The loop of the walker visits the package links: the anchors selected
    by [a[href$=.html]] other than [index.html]. *)
Lemma walk_links (ch : string) (ns : list Node) :
  for_each (filter (fun n => matches html_anchor n = true) ns)
    (fun a =>
       let href := get a "href" in
       if bool_decide (href = Some "index.html")
       then ret tt
       else fetch_package (BASE_URL +:+ "/" +:+ ch +:+ "/" +:+ Script.fmt href))
  = for_each (filter is_package_href (omap anchor_href ns))
      (fun h => fetch_package (package_url ch h)).
Proof.
  induction ns as [|n ns IH]; [done|]. cbn zeta in IH |- *.
  rewrite filter_cons. cbn [omap list_omap]. unfold anchor_href at 1.
  set (rest := filter _ ns) in *.
  cbn [matches html_anchor]. unfold attr_suffix_match.
  destruct (is_tag "a" n); cbn [andb]; [|by destruct (decide _)].
  destruct (get n "href") as [v|] eqn:Hv; [|by destruct (decide _)].
  rewrite filter_cons. unfold is_package_href at 1.
  destruct (decide (re_suffix_match v ".html" = true)) as [He|He].
  - rewrite for_each_cons, Hv.
    destruct (decide (v = "index.html")) as [->|Hne].
    + rewrite bool_decide_eq_true_2 by done. rewrite bind_ret_l.
      rewrite decide_False by (intros [_ ?]; done). done.
    + rewrite bool_decide_eq_false_2 by congruence.
      rewrite decide_True by done. rewrite for_each_cons. by rewrite IH.
  - rewrite decide_False by (intros [? _]; done). done.
Qed.

Lemma fetch_chapter_eq ch :
  fetch_chapter ch
  = (fetch_index ch ;;; for_each (chapter_pages ch) fetch_package).
Proof.
  unfold Script.fetch_chapter, fetch_index, chapter_pages, chapter_links.
  fold (index_url ch). unfold Script.requests_get, Script.raise_for_status.
  fold error_status. cbn zeta.
  destruct (network (index_url ch)) as [r|]; [|done]. cbn [bind].
  fold (error_status r).
  destruct (error_status r); [done|]. cbn [bind ret app].
  unfold select. fold html_anchor. rewrite walk_links.
  fold (hrefs (BeautifulSoup (text r))).
  fold (package_links (BeautifulSoup (text r))).
  rewrite for_each_fmap. by destruct (for_each _ _).
Qed.

Lemma fetch_index_eq ch :
  fetch_index ch =
  ([Get (index_url ch) 30],
   match network (index_url ch) with
   | None => Raise RequestException
   | Some r =>
       if error_status r then Raise (HTTPError (status_code r)) else Ok tt
   end).
Proof.
  unfold Spec.fetch_index, Script.requests_get, Script.raise_for_status.
  destruct (network _) as [r|]; [|done]. cbn [bind]. fold (error_status r).
  by destruct (error_status r).
Qed.

Lemma fetch_index_ok ch :
  outcome (fetch_index ch) = Ok tt <-> exists r, served (index_url ch) r.
Proof.
  rewrite fetch_index_eq. unfold Spec.served. cbn. split.
  - destruct (network _) as [r|]; [|done].
    destruct (error_status r) eqn:E; [done|]. by exists r.
  - by intros (r & -> & ->).
Qed.

Lemma chapter_links_served ch r :
  served (index_url ch) r ->
  chapter_links ch = package_links (BeautifulSoup (text r)).
Proof. intros [H1 H2]. unfold Spec.chapter_links. by rewrite H1, H2. Qed.

Lemma chapter_links_not_served ch :
  outcome (fetch_index ch) <> Ok tt -> chapter_links ch = [].
Proof.
  rewrite fetch_index_eq. unfold Spec.chapter_links. cbn.
  destruct (network _) as [r|]; [|done]. by destruct (error_status r).
Qed.

(** The events of a chapter: the GET of its index, then those of the loop
    over its package pages. *)
Lemma fetch_chapter_trace ch :
  trace (fetch_chapter ch)
  = Get (index_url ch) 30 :: trace (for_each (chapter_pages ch) fetch_package).
Proof.
  rewrite fetch_chapter_eq, bind_eq.
  destruct (outcome (fetch_index ch)) as [[]|e] eqn:E.
  - by rewrite fetch_index_eq.
  - unfold Spec.chapter_pages. rewrite chapter_links_not_served by congruence.
    by rewrite fetch_index_eq.
Qed.

Lemma fetch_chapter_outcome ch :
  outcome (fetch_chapter ch) =
  match outcome (fetch_index ch) with
  | Ok _ => outcome (for_each (chapter_pages ch) fetch_package)
  | Raise e => Raise e
  end.
Proof.
  rewrite fetch_chapter_eq, bind_eq. by destruct (outcome (fetch_index ch)).
Qed.

Lemma requests_block_writes l : requests (flat_map block_writes l) = [].
Proof. induction l as [|x l IH]; [done|]. exact IH. Qed.

(** A page fetch makes one request: the GET of the page. *)
Lemma requests_fetch_package url :
  requests (trace (fetch_package url)) = [(url, 30)].
Proof.
  rewrite fetch_package_eq. destruct (network url) as [r|]; [|done].
  destruct (error_status r); [done|]. cbn zeta.
  destruct (find "h1" _); [|done]. cbn. by rewrite requests_block_writes.
Qed.

Lemma requests_loop_trace (l : list string) :
  requests (loop_trace l fetch_package) = (fun u => (u, 30)) <$> l.
Proof.
  induction l as [|u l IH]; [done|]. unfold loop_trace in *.
  cbn [flat_map fmap list_fmap]. rewrite requests_app, requests_fetch_package.
  cbn [fmap] in IH. by rewrite IH.
Qed.

(** The requests of the loop over the pages: the pages in order, up to the
    first one whose fetch raises. *)
Lemma requests_pages (l : list string) :
  (exists k,
      requests (trace (for_each l fetch_package))
      = (fun u => (u, 30)) <$> take k l)
  /\ (Forall (fun u => outcome (fetch_package u) = Ok tt) l ->
      requests (trace (for_each l fetch_package)) = (fun u => (u, 30)) <$> l).
Proof.
  split.
  - destruct (for_each_split l fetch_package)
      as [H|(l1 & x & l2 & e & -> & H1 & Hx)].
    + exists (length l). rewrite for_each_ok by done.
      rewrite firstn_all. apply requests_loop_trace.
    + exists (S (length l1)). rewrite (for_each_raise _ _ _ _ e) by done.
      cbn [trace fst]. rewrite requests_app, requests_loop_trace.
      rewrite requests_fetch_package.
      replace (l1 ++ x :: l2) with ((l1 ++ [x]) ++ l2) by by rewrite <- app_assoc.
      rewrite take_app_length' by (rewrite length_app; simpl; lia).
      by rewrite fmap_app.
  - intros H. rewrite for_each_ok by done. apply requests_loop_trace.
Qed.




(** A chapter ends normally exactly when its index is served and every
    package page of the index is served and has a heading. *)
Lemma fetch_chapter_ok ch :
  outcome (fetch_chapter ch) = Ok tt <->
  (exists r, served (index_url ch) r)
  /\ Forall (fun u => outcome (fetch_package u) = Ok tt) (chapter_pages ch).
Proof.
  rewrite fetch_chapter_outcome, <- fetch_index_ok. split.
  - destruct (outcome (fetch_index ch)) as [[]|e]; [|done].
    intros H. split; [done|]. by apply for_each_outcome_ok.
  - intros [-> H]. by rewrite for_each_ok.
Qed.


Lemma fetch_chapter_requests_ok ch :
  outcome (fetch_chapter ch) = Ok tt ->
  requests (trace (fetch_chapter ch))
  = (index_url ch, 30) :: ((fun h => (package_url ch h, 30)) <$> chapter_links ch).
Proof.
  intros [_ H]%fetch_chapter_ok.
  rewrite fetch_chapter_trace. cbn [requests].
  destruct (requests_pages (chapter_pages ch)) as [_ Hall].
  rewrite Hall by done. unfold Spec.chapter_pages. by rewrite <- list_fmap_compose.
Qed.

(** *** The entry point *)

Lemma main_eq argv :
  drop 1 argv <> [] -> main argv = for_each (drop 1 argv) fetch_chapter.
Proof.
  intros H. unfold Script.main.
  destruct argv as [|a [|b l]]; [done..|]. done.
Qed.

Lemma stdout_flat_map {A} (f : A -> list Event) (l : list A) :
  stdout (flat_map f l) = join ((fun x => stdout (f x)) <$> l).
Proof.
  induction l as [|x l IH]; [done|].
  cbn [flat_map fmap list_fmap join foldr]. by rewrite stdout_app, IH.
Qed.


(** C7: with one chapter identifier or more, the chapters are walked in the
    order given, each to its end before the next starts: the events of the
    run are always an initial part of the events of the chapters taken in
    order, and when every chapter is fetched without error they are all of
    them, the output is the outputs of the chapters one after the other,
    and the exit status is 0. *)
Theorem main_chapters_in_order argv :
  drop 1 argv <> [] ->
  trace (main argv)
    `prefix_of` flat_map (fun ch => trace (fetch_chapter ch)) (drop 1 argv)
  /\ (Forall (fun ch => outcome (fetch_chapter ch) = Ok tt) (drop 1 argv) ->
      trace (main argv)
      = flat_map (fun ch => trace (fetch_chapter ch)) (drop 1 argv)
      /\ stdout (trace (main argv))
         = join ((fun ch => stdout (trace (fetch_chapter ch))) <$> drop 1 argv)
      /\ exit_status (outcome (main argv)) = 0).
Proof.
  intros H. rewrite main_eq by done. split.
  - apply for_each_prefix.
  - intros Hok. rewrite for_each_ok by done. cbn [trace outcome fst snd].
    split; [done|]. split; [|done]. apply stdout_flat_map.
Qed.




(** *** Exceptions reach the top *)

Lemma aborts_bind {A B} (m : M A) (f : A -> M B) :
  aborts_on_error m ->
  (forall a, outcome m = Ok a -> aborts_on_error (f a)) ->
  aborts_on_error (bind m f).
Proof.
  intros Hm Hf pre u tm post r. rewrite bind_eq.
  destruct (outcome m) as [a|e] eqn:E; cbn [trace outcome fst snd].
  - intros Ht Hn He.
    apply app_eq_app in Ht as [l [[H1 H2]|[H1 H2]]].
    + destruct l as [|x l].
      * apply (Hf a eq_refl [] u tm post r); done.
      * injection H2 as <- H2.
        destruct (Hm pre u tm l r) as [_ Hex]; [done..|].
        by rewrite E in Hex.
    + apply (Hf a eq_refl l u tm post r); done.
  - intros Ht Hn He. destruct (Hm pre u tm post r) as [? Hex]; [done..|].
    by rewrite E in Hex.
Qed.

Lemma aborts_for_each {A} (l : list A) (body : A -> M unit) :
  (forall x, aborts_on_error (body x)) -> aborts_on_error (for_each l body).
Proof.
  intros H. induction l as [|x l IH].
  - intros [|] ?????; done.
  - rewrite for_each_cons. apply aborts_bind; [done|]. by intros.
Qed.

Lemma split_requests t pre u tm post :
  t = pre ++ Get u tm :: post ->
  requests t = requests pre ++ (u, tm) :: requests post.
Proof. intros ->. by rewrite requests_app. Qed.

Lemma aborts_fetch_package url : aborts_on_error (fetch_package url).
Proof.
  intros pre u tm post r Ht Hn He.
  pose proof (split_requests _ _ _ _ _ Ht) as Hr.
  rewrite requests_fetch_package in Hr.
  destruct (requests pre) as [|? [|]] eqn:Hpre; [|done..].
  injection Hr as <- <- Hpost. symmetry in Hpost.
  rewrite fetch_package_eq, Hn, He in Ht |- *. cbn [trace outcome fst snd] in *.
  split; [|done]. destruct pre as [|e pre]; [by injection Ht|].
  injection Ht as -> Ht. by destruct pre.
Qed.

Lemma aborts_fetch_index ch : aborts_on_error (fetch_index ch).
Proof.
  intros pre u tm post r. rewrite fetch_index_eq. cbn [trace outcome fst snd].
  intros Ht Hn He. destruct pre as [|e pre].
  - simplify_eq/=. by rewrite Hn, He.
  - injection Ht as _ Ht. by destruct pre.
Qed.

Lemma aborts_fetch_chapter ch : aborts_on_error (fetch_chapter ch).
Proof.
  rewrite fetch_chapter_eq. apply aborts_bind; [apply aborts_fetch_index|].
  intros _ _. apply aborts_for_each, aborts_fetch_package.
Qed.

Lemma aborts_main argv : aborts_on_error (main argv).
Proof.
  destruct (decide (drop 1 argv = [])) as [Hnil|Hne].
  - intros pre u tm post r Ht.
    pose proof (split_requests _ _ _ _ _ Ht) as Hr.
    rewrite (main_no_chapter argv Hnil) in Hr. cbn in Hr.
    by destruct (requests pre).
  - rewrite main_eq by done. apply aborts_for_each, aborts_fetch_chapter.
Qed.

(** C4, as the script has it: a page (index or package) answered with a 4xx
    or 5xx status raises [HTTPError], which nothing catches: its GET is the
    last event of the run, and the run exits with status 1. *)
Theorem http_error_aborts argv pre u tm post r :
  trace (main argv) = pre ++ Get u tm :: post ->
  network u = Some r ->
  400 <= status_code r < 600 ->
  post = []
  /\ outcome (main argv) = Raise (HTTPError (status_code r))
  /\ exit_status (outcome (main argv)) = 1.
Proof.
  intros Ht Hn Hs.
  assert (error_status r = true) as He by (unfold error_status; lia).
  destruct (aborts_main argv pre u tm post r Ht Hn He) as [-> Hex].
  split; [done|]. destruct (outcome (main argv)) as [a|e]; [done|].
  injection Hex as ->. done.
Qed.

(** C8: a served package page without a level-1 heading makes
    [fetch_package] raise where the title is taken from the missing
    element: nothing is printed for the page.  Nothing catches the error:
    when the walk reaches that page, its GET is the last event of the run,
    which exits with status 1. *)
Theorem missing_heading_raises url r :
  served url r ->
  find "h1" (BeautifulSoup (text r)) = None ->
  fetch_package url = ([Get url 30], Raise AttributeError)
  /\ forall argv c1 ch c2 p1 p2,
      drop 1 argv = c1 ++ ch :: c2 ->
      Forall (fun c => outcome (fetch_chapter c) = Ok tt) c1 ->
      chapter_pages ch = p1 ++ url :: p2 ->
      Forall (fun u => outcome (fetch_package u) = Ok tt) p1 ->
      main argv
      = (loop_trace c1 fetch_chapter
           ++ Get (index_url ch) 30 :: loop_trace p1 fetch_package
           ++ [Get url 30],
         Raise AttributeError)
      /\ exit_status (outcome (main argv)) = 1.
Proof.
  intros [Hn He] Hh.
  assert (fetch_package url = ([Get url 30], Raise AttributeError)) as Hpkg.
  { rewrite fetch_package_eq, Hn, He. cbn zeta. by rewrite Hh. }
  split; [done|]. intros argv c1 ch c2 p1 p2 Hargv Hc1 Hpages Hp1.
  assert (fetch_chapter ch
          = (Get (index_url ch) 30 :: loop_trace p1 fetch_package ++ [Get url 30],
             Raise AttributeError)) as Hch.
  { rewrite fetch_chapter_eq, bind_eq.
    destruct (outcome (fetch_index ch)) as [[]|e] eqn:E.
    - rewrite Hpages, (for_each_raise _ _ _ _ AttributeError);
        [|done|by rewrite Hpkg].
      by rewrite fetch_index_eq, Hpkg.
    - unfold Spec.chapter_pages in Hpages.
      rewrite chapter_links_not_served in Hpages by congruence.
      by destruct p1. }
  rewrite main_eq by (rewrite Hargv; by destruct c1).
  rewrite Hargv, (for_each_raise _ _ _ _ AttributeError);
    [|done|by rewrite Hch].
  by rewrite Hch.
Qed.

End ScriptFacts.

(** ** Two runs against the same server *)

Section Determinism.
Import Spec.
Variables net1 net2 : string -> option Response.
Variable BeautifulSoup : string -> Soup.Document.

Local Abbreviation agree_on := (Spec.agree_on net1 net2).

Lemma agree_on_app t1 t2 : agree_on (t1 ++ t2) -> agree_on t1 /\ agree_on t2.
Proof.
  unfold Spec.agree_on. intros H.
  split; intros u tm Hin; apply (H u tm); rewrite requests_app;
    apply elem_of_app; auto.
Qed.

Lemma for_each_agree {A} (l : list A) (f g : A -> M unit) :
  (forall x, agree_on (trace (f x)) -> f x = g x) ->
  agree_on (trace (for_each l f)) ->
  for_each l f = for_each l g.
Proof.
  intros Hfg. induction l as [|x l IH]; [done|].
  rewrite !for_each_cons, bind_eq. intros Hag.
  destruct (outcome (f x)) as [[]|e] eqn:E; cbn [trace fst] in Hag.
  - apply agree_on_app in Hag as [H1 H2].
    rewrite <- (Hfg x H1), bind_eq, E, (IH H2). done.
  - rewrite <- (Hfg x Hag), bind_eq, E. done.
Qed.

Lemma fetch_package_agree url :
  agree_on (trace (Script.fetch_package net1 BeautifulSoup url)) ->
  Script.fetch_package net1 BeautifulSoup url
  = Script.fetch_package net2 BeautifulSoup url.
Proof.
  intros H. assert (net1 url = net2 url) as Heq.
  { apply (H url 30). rewrite requests_fetch_package. by apply elem_of_cons; left. }
  by rewrite !fetch_package_eq, Heq.
Qed.

Lemma fetch_chapter_agree ch :
  agree_on (trace (Script.fetch_chapter net1 BeautifulSoup ch)) ->
  Script.fetch_chapter net1 BeautifulSoup ch
  = Script.fetch_chapter net2 BeautifulSoup ch.
Proof.
  rewrite fetch_chapter_trace. intros H.
  apply (agree_on_app [_]) in H as [H1 H2].
  assert (net1 (index_url ch) = net2 (index_url ch)) as Heq.
  { apply (H1 _ 30). by apply elem_of_cons; left. }
  rewrite !fetch_chapter_eq. rewrite (for_each_agree _ _ _ fetch_package_agree H2).
  rewrite !fetch_index_eq. unfold chapter_pages, chapter_links. by rewrite Heq.
Qed.

(** A run depends on the server only through the answers to the URLs it
    requests. *)
Lemma main_agree argv :
  agree_on (trace (Script.main net1 BeautifulSoup argv)) ->
  Script.main net1 BeautifulSoup argv = Script.main net2 BeautifulSoup argv.
Proof.
  destruct (decide (drop 1 argv = [])) as [Hnil|Hne].
  - intros _. unfold Script.main. by destruct argv as [|a [|b l]].
  - rewrite !main_eq by done. apply for_each_agree, fetch_chapter_agree.
Qed.

End Determinism.

(** ** Two runs: what a run reads of the world *)

Section TwoRuns.
Import Spec.
Variables net1 net2 : string -> option Response.
Variables bs1 bs2 : string -> Soup.Document.

Local Abbreviation same_view := (Spec.same_view net1 net2 bs1 bs2).

Lemma same_view_app t1 t2 :
  same_view (t1 ++ t2) -> same_view t1 /\ same_view t2.
Proof.
  unfold Spec.same_view. intros H.
  split; intros u tm Hin; apply (H u tm); rewrite requests_app;
    apply elem_of_app; auto.
Qed.

Lemma for_each_same {A} (l : list A) (f g : A -> M unit) :
  (forall x, same_view (trace (f x)) -> f x = g x) ->
  same_view (trace (for_each l f)) ->
  for_each l f = for_each l g.
Proof.
  intros Hfg. induction l as [|x l IH]; [done|].
  rewrite !for_each_cons, bind_eq. intros Hv.
  destruct (outcome (f x)) as [[]|e] eqn:E; cbn [trace fst] in Hv.
  - apply same_view_app in Hv as [H1 H2].
    rewrite <- (Hfg x H1), bind_eq, E, (IH H2). done.
  - rewrite <- (Hfg x Hv), bind_eq, E. done.
Qed.

Lemma fetch_package_same url :
  same_view (trace (Script.fetch_package net1 bs1 url)) ->
  Script.fetch_package net1 bs1 url = Script.fetch_package net2 bs2 url.
Proof.
  intros H. destruct (H url 30) as [Hn Hb].
  { rewrite requests_fetch_package. by apply elem_of_cons; left. }
  rewrite !fetch_package_eq, <- Hn.
  destruct (net1 url) as [r|]; [|done].
  destruct (error_status r) eqn:E; [done|]. cbn zeta.
  by rewrite (Hb r eq_refl E).
Qed.

Lemma fetch_chapter_same ch :
  same_view (trace (Script.fetch_chapter net1 bs1 ch)) ->
  Script.fetch_chapter net1 bs1 ch = Script.fetch_chapter net2 bs2 ch.
Proof.
  rewrite fetch_chapter_trace. intros H.
  apply (same_view_app [_]) in H as [H1 H2].
  destruct (H1 (index_url ch) 30) as [Hn Hb]; [by apply elem_of_cons; left|].
  rewrite !fetch_chapter_eq. rewrite (for_each_same _ _ _ fetch_package_same H2).
  rewrite !fetch_index_eq. unfold chapter_pages, chapter_links. rewrite <- Hn.
  destruct (net1 (index_url ch)) as [r|]; [|done].
  destruct (error_status r) eqn:E; [done|]. by rewrite (Hb r eq_refl E).
Qed.

Lemma main_same argv :
  same_view (trace (Script.main net1 bs1 argv)) ->
  Script.main net1 bs1 argv = Script.main net2 bs2 argv.
Proof.
  destruct (decide (drop 1 argv = [])) as [Hnil|Hne].
  - intros _. unfold Script.main. by destruct argv as [|a [|b l]].
  - rewrite !main_eq by done. apply for_each_same, fetch_chapter_same.
Qed.

(** C10: two runs with the same arguments write the same text to standard
    output and exit with the same status when they meet the same mapping
    from URLs to responses.  The run reads the mapping only at the URLs it
    requests, and reads a body only through the parse of it: it is enough
    that the servers of the two runs answer alike the URLs the first run
    requests, and that the bodies served for them are parsed alike. *)
Theorem main_deterministic argv :
  (forall u tm,
      (u, tm) ∈ requests (trace (Script.main net1 bs1 argv)) ->
      net1 u = net2 u
      /\ forall r, net1 u = Some r -> error_status r = false ->
                   bs1 (text r) = bs2 (text r)) ->
  stdout (trace (Script.main net1 bs1 argv))
  = stdout (trace (Script.main net2 bs2 argv))
  /\ exit_status (outcome (Script.main net1 bs1 argv))
     = exit_status (outcome (Script.main net2 bs2 argv)).
Proof.
  intros H. by rewrite (main_same argv H).
Qed.

End TwoRuns.

(** ** Failures: where a run stops, and why *)

Section Failures.
Import PyStr Soup Spec.
Variable network : string -> option Response.
Variable BeautifulSoup : string -> Document.

Local Abbreviation fetch_package := (Script.fetch_package network BeautifulSoup).
Local Abbreviation fetch_chapter := (Script.fetch_chapter network BeautifulSoup).
Local Abbreviation main := (Script.main network BeautifulSoup).
Local Abbreviation served := (Spec.served network).
Local Abbreviation fetch_index := (Spec.fetch_index network).
Local Abbreviation chapter_links := (Spec.chapter_links network BeautifulSoup).
Local Abbreviation chapter_pages := (Spec.chapter_pages network BeautifulSoup).
Local Abbreviation fatal := (Spec.fatal network).
Local Abbreviation stops_at_fatal := (Spec.stops_at_fatal network).
Local Abbreviation cause := (Spec.cause network BeautifulSoup).
Local Abbreviation diagnosed := (Spec.diagnosed network BeautifulSoup).

Lemma for_each_app {A} (l1 l2 : list A) (body : A -> M unit) :
  for_each (l1 ++ l2) body = (for_each l1 body ;;; for_each l2 body).
Proof.
  induction l1 as [|x l1 IH]; cbn [app].
  - by rewrite (bind_ret_l tt).
  - rewrite !for_each_cons, IH.
    destruct (body x) as [t [[]|e]]; [|done]. cbn [bind].
    destruct (for_each l1 body) as [t1 [[]|e1]]; [|done]. cbn [bind].
    destruct (for_each l2 body) as [t2 o2]. by rewrite app_assoc.
Qed.

(** X4: a page fetch makes one request, before anything else: its events
    are the GET of the page followed by writes only, and by nothing at all
    when the fetch raises, whatever the reason. *)
Theorem fetch_package_shape url :
  exists ws,
    trace (fetch_package url) = Get url 30 :: ws
    /\ requests ws = []
    /\ (outcome (fetch_package url) <> Ok tt -> ws = []).
Proof.
  rewrite fetch_package_eq. destruct (network url) as [r|]; [|by exists []].
  destruct (error_status r); [by exists []|]. cbn zeta.
  destruct (find "h1" _) as [h|]; [|by exists []].
  eexists. split; [done|]. split; [|done]. apply requests_block_writes.
Qed.

Lemma stops_bind {A B} (m : M A) (f : A -> M B) :
  stops_at_fatal m ->
  (forall a, outcome m = Ok a -> stops_at_fatal (f a)) ->
  stops_at_fatal (bind m f).
Proof.
  intros Hm Hf pre u tm post e. rewrite bind_eq.
  destruct (outcome m) as [a|e'] eqn:E; cbn [trace outcome fst snd].
  - intros Ht Hfat.
    apply app_eq_app in Ht as [l [[H1 H2]|[H1 H2]]].
    + destruct l as [|x l].
      * apply (Hf a eq_refl [] u tm post e); done.
      * injection H2 as <- H2.
        destruct (Hm pre u tm l e) as [_ Hex]; [done..|].
        by rewrite E in Hex.
    + apply (Hf a eq_refl l u tm post e); done.
  - intros Ht Hfat. destruct (Hm pre u tm post e) as [? Hex]; [done..|].
    by rewrite E in Hex.
Qed.

Lemma stops_for_each {A} (l : list A) (body : A -> M unit) :
  (forall x, stops_at_fatal (body x)) -> stops_at_fatal (for_each l body).
Proof.
  intros H. induction l as [|x l IH].
  - intros [|] ?????; done.
  - rewrite for_each_cons. apply stops_bind; [done|]. by intros.
Qed.

Lemma stops_fetch_package url : stops_at_fatal (fetch_package url).
Proof.
  intros pre u tm post e Ht Hfat.
  pose proof (split_requests _ _ _ _ _ Ht) as Hr.
  rewrite requests_fetch_package in Hr.
  destruct (requests pre) as [|? [|]] eqn:Hpre; [|done..].
  injection Hr as <- <- Hpost.
  rewrite fetch_package_eq in Ht |- *. unfold Spec.fatal in Hfat.
  destruct (network url) as [r|].
  - destruct (error_status r); [|done]. cbn [trace outcome fst snd] in *.
    split; [|done]. destruct pre as [|x pre]; [by injection Ht|].
    injection Ht as _ Ht. by destruct pre.
  - cbn [trace outcome fst snd] in *.
    split; [|done]. destruct pre as [|x pre]; [by injection Ht|].
    injection Ht as _ Ht. by destruct pre.
Qed.

Lemma stops_fetch_index ch : stops_at_fatal (fetch_index ch).
Proof.
  intros pre u tm post e. rewrite fetch_index_eq. cbn [trace outcome fst snd].
  unfold Spec.fatal. intros Ht Hfat. destruct pre as [|x pre].
  - simplify_eq/=. split; [done|].
    destruct (network (index_url ch)) as [r|]; [|done].
    by destruct (error_status r).
  - injection Ht as _ Ht. by destruct pre.
Qed.

Lemma stops_main argv : stops_at_fatal (main argv).
Proof.
  destruct (decide (drop 1 argv = [])) as [Hnil|Hne].
  - intros pre u tm post e Ht.
    pose proof (split_requests _ _ _ _ _ Ht) as Hr.
    rewrite (main_no_chapter _ _ argv Hnil) in Hr. cbn in Hr.
    by destruct (requests pre).
  - rewrite main_eq by done. apply stops_for_each. intros ch.
    rewrite fetch_chapter_eq. apply stops_bind; [apply stops_fetch_index|].
    intros _ _. apply stops_for_each, stops_fetch_package.
Qed.

(** X1: a request that gets no answer (connection error, timeout) raises
    [RequestException], which nothing catches: its GET is the last event of
    the run, and the run exits with status 1. *)
Theorem transport_failure_aborts argv pre u tm post :
  trace (main argv) = pre ++ Get u tm :: post ->
  network u = None ->
  post = []
  /\ outcome (main argv) = Raise RequestException
  /\ exit_status (outcome (main argv)) = 1.
Proof.
  intros Ht Hn.
  destruct (stops_main argv pre u tm post RequestException Ht) as [-> Hex].
  { unfold Spec.fatal. by rewrite Hn. }
  split; [done|]. destruct (outcome (main argv)) as [a|e]; [done|].
  injection Hex as ->. done.
Qed.

Lemma diag_bind {A B} (m : M A) (f : A -> M B) :
  diagnosed m ->
  (forall a, outcome m = Ok a -> diagnosed (f a)) ->
  diagnosed (bind m f).
Proof.
  intros Hm Hf e. rewrite bind_eq.
  destruct (outcome m) as [a|e'] eqn:E; cbn [trace outcome fst snd].
  - intros He. destruct (Hf a eq_refl e He) as (pre & u & -> & Hc).
    exists (trace m ++ pre), u. by rewrite app_assoc.
  - intros [= ->]. apply Hm. by rewrite E.
Qed.

Lemma diag_for_each {A} (l : list A) (body : A -> M unit) :
  (forall x, diagnosed (body x)) -> diagnosed (for_each l body).
Proof.
  intros H. induction l as [|x l IH]; [done|].
  rewrite for_each_cons. apply diag_bind; [done|]. by intros.
Qed.

Lemma error_status_range r :
  error_status r = true <-> 400 <= status_code r < 600.
Proof. unfold error_status. rewrite andb_true_iff, Z.leb_le, Z.ltb_lt. done. Qed.

Lemma diag_fetch_package url : diagnosed (fetch_package url).
Proof.
  intros e. rewrite fetch_package_eq.
  destruct (network url) as [r|] eqn:Hn.
  - destruct (error_status r) eqn:He; cbn zeta.
    + intros [= <-]. exists [], url. split; [done|]. right. left.
      exists r. by rewrite <- error_status_range.
    + destruct (find "h1" _) as [h|] eqn:Hh; [done|].
      intros [= <-]. exists [], url. split; [done|]. right. right.
      by exists r.
  - intros [= <-]. exists [], url. split; [done|]. by left.
Qed.

Lemma diag_fetch_index ch : diagnosed (fetch_index ch).
Proof.
  intros e. rewrite fetch_index_eq. cbn [trace outcome fst snd].
  destruct (network (index_url ch)) as [r|] eqn:Hn.
  - destruct (error_status r) eqn:He; [|done].
    intros [= <-]. exists [], (index_url ch). split; [done|]. right. left.
    exists r. by rewrite <- error_status_range.
  - intros [= <-]. exists [], (index_url ch). split; [done|]. by left.
Qed.

Lemma diag_fetch_chapter ch : diagnosed (fetch_chapter ch).
Proof.
  rewrite fetch_chapter_eq. apply diag_bind; [apply diag_fetch_index|].
  intros _ _. apply diag_for_each, diag_fetch_package.
Qed.

Lemma cause_exit u e : cause u e -> exit_status (Raise (A:=unit) e) = 1.
Proof. by intros [[_ ->]|[(r & _ & _ & ->)|(r & _ & _ & ->)]]. Qed.

(** X2: what each of the four exceptions of the script tells about the
    run that ended in it.  [SystemExit]: no chapter was given, the code is
    1 and nothing was requested.  [RequestException]: the last event is a
    GET that got no answer.  [HTTPError]: the last event is a GET answered
    with the status the error carries, which is 4xx or 5xx.
    [AttributeError]: the last event is the GET of a page that was served
    and has no level-1 heading. *)
Theorem failure_cause argv :
  (forall c, outcome (main argv) = Raise (SystemExit c) ->
             drop 1 argv = [] /\ c = 1 /\ requests (trace (main argv)) = [])
  /\ (outcome (main argv) = Raise RequestException ->
      exists pre u, trace (main argv) = pre ++ [Get u 30] /\ network u = None)
  /\ (forall s, outcome (main argv) = Raise (HTTPError s) ->
                exists pre u r,
                  trace (main argv) = pre ++ [Get u 30]
                  /\ network u = Some r /\ status_code r = s
                  /\ 400 <= s < 600)
  /\ (outcome (main argv) = Raise AttributeError ->
      exists pre u r,
        trace (main argv) = pre ++ [Get u 30]
        /\ served u r /\ find "h1" (BeautifulSoup (text r)) = None).
Proof.
  assert (forall e, outcome (main argv) = Raise e ->
            (drop 1 argv = [] /\ e = SystemExit 1
             /\ requests (trace (main argv)) = [])
            \/ exists pre u, trace (main argv) = pre ++ [Get u 30] /\ cause u e)
    as Hall.
  { intros e. destruct (decide (drop 1 argv = [])) as [Hnil|Hne].
    - rewrite (main_no_chapter _ _ argv Hnil). intros [= <-]. by left.
    - rewrite main_eq by done. intros He. right.
      by apply (diag_for_each _ _ diag_fetch_chapter). }
  repeat split.
  - by destruct (Hall _ H) as [(? & [= ->] & ?)|(pre & u & _ & [[_ ?]|[(r & _ & _ & ?)|(r & _ & _ & ?)]])].
  - by destruct (Hall _ H) as [(? & [= ->] & ?)|(pre & u & _ & [[_ ?]|[(r & _ & _ & ?)|(r & _ & _ & ?)]])].
  - by destruct (Hall _ H) as [(? & [= ->] & ?)|(pre & u & _ & [[_ ?]|[(r & _ & _ & ?)|(r & _ & _ & ?)]])].
  - intros H. destruct (Hall _ H)
      as [(? & ? & ?)|(pre & u & Ht & [[Hn _]|[(r & _ & _ & ?)|(r & _ & _ & ?)]])];
      [done| |done..]. by exists pre, u.
  - intros s0 H. destruct (Hall _ H)
      as [(? & ? & ?)|(pre & u & Ht & [[_ ?]|[(r & Hn & Hr & He)|(r & _ & _ & ?)]])];
      [done..| |done]. injection He as ->. by exists pre, u, r.
  - intros H. destruct (Hall _ H)
      as [(? & ? & ?)|(pre & u & Ht & [[_ ?]|[(r & _ & _ & ?)|(r & Hs & Hf & _)]])];
      [done..|]. by exists pre, u, r.
Qed.

(** X3: the exit status of a run is 0 or 1, and it is 0 exactly when at
    least one chapter was given and the walk of every chapter given ended
    without an exception. *)
Theorem exit_status_spec argv :
  (exit_status (outcome (main argv)) = 0 <->
   drop 1 argv <> []
   /\ Forall (fun ch => outcome (fetch_chapter ch) = Ok tt) (drop 1 argv))
  /\ (exit_status (outcome (main argv)) = 0
      \/ exit_status (outcome (main argv)) = 1).
Proof.
  destruct (decide (drop 1 argv = [])) as [Hnil|Hne].
  - rewrite (main_no_chapter _ _ argv Hnil). cbn. split; [|by right].
    split; [done|]. by intros [? _].
  - rewrite main_eq by done.
    destruct (outcome (for_each (drop 1 argv) fetch_chapter)) as [[]|e] eqn:E.
    + split; [|by left]. split; [|done]. intros _. split; [done|].
      by apply for_each_outcome_ok.
    + destruct (diag_for_each _ _ diag_fetch_chapter e E) as (pre & u & _ & Hc).
      rewrite (cause_exit u e Hc). split; [|by right]. split; [done|].
      intros [_ Hok]. rewrite for_each_ok in E by done. done.
Qed.

End Failures.

(** ** Walks: order, reach and edge cases *)

Section Walks.
Import PyStr Soup Spec.
Variable network : string -> option Response.
Variable BeautifulSoup : string -> Document.

Local Abbreviation fetch_package := (Script.fetch_package network BeautifulSoup).
Local Abbreviation fetch_chapter := (Script.fetch_chapter network BeautifulSoup).
Local Abbreviation main := (Script.main network BeautifulSoup).
Local Abbreviation served := (Spec.served network).
Local Abbreviation fetch_index := (Spec.fetch_index network).
Local Abbreviation chapter_links := (Spec.chapter_links network BeautifulSoup).
Local Abbreviation chapter_pages := (Spec.chapter_pages network BeautifulSoup).

Lemma filter_none {A} (P : A -> Prop) `{forall x, Decision (P x)} (l : list A) :
  Forall (fun x => ~ P x) l -> filter P l = [].
Proof.
  induction 1 as [|x l Hx _ IH]; [done|]. by rewrite filter_cons_False.
Qed.

Lemma str_length_app s t :
  String.length (s +:+ t) = (String.length s + String.length t)%nat.
Proof.
  induction s as [|c s IH]; [done|].
  rewrite PyStrFacts.app_cons. simpl. by rewrite IH.
Qed.

Lemma nested_index_href p : p <> "" -> is_package_href (p +:+ "index.html").
Proof.
  intros Hp. split.
  - unfold re_suffix_match. apply orb_true_iff. left.
    apply PyStrFacts.endswith_spec. exists (p +:+ "index").
    by rewrite PyStrFacts.app_assoc.
  - intros H. apply (f_equal String.length) in H.
    rewrite str_length_app in H. destruct p; [done|]. simpl in H. lia.
Qed.

(** X5: inside a chapter the pages are handled strictly one after the
    other, after the index: the events of the walk are the GET of the index
    followed by an initial part of the events of the page fetches in link
    order, all of them when the walk ends normally; the index itself prints
    nothing, so the output of a chapter is the outputs of its pages. *)
Theorem fetch_chapter_pages_in_order ch :
  exists t,
    trace (fetch_chapter ch) = Get (index_url ch) 30 :: t
    /\ t `prefix_of`
         flat_map (fun u => trace (fetch_package u)) (chapter_pages ch)
    /\ (outcome (fetch_chapter ch) = Ok tt ->
        t = flat_map (fun u => trace (fetch_package u)) (chapter_pages ch)
        /\ stdout (trace (fetch_chapter ch))
           = join ((fun u => stdout (trace (fetch_package u)))
                     <$> chapter_pages ch)).
Proof.
  exists (trace (for_each (chapter_pages ch) fetch_package)).
  split; [apply fetch_chapter_trace|]. split; [apply for_each_prefix|].
  intros [_ H]%fetch_chapter_ok.
  rewrite fetch_chapter_trace, for_each_ok by done. cbn [trace fst stdout].
  split; [done|]. apply stdout_flat_map.
Qed.

(** X6: the chapters given after the first chapter whose walk raises are
    never reached, and the program name plays no part: the run is the same
    as if the command line ended at that chapter. *)
Theorem later_chapters_unreached prog prog' c1 ch c2 :
  outcome (fetch_chapter ch) <> Ok tt ->
  main (prog :: c1 ++ ch :: c2) = main (prog' :: c1 ++ [ch]).
Proof.
  intros H. rewrite !main_eq by (cbn; by destruct c1).
  change (drop 1 (prog :: c1 ++ ch :: c2)) with (c1 ++ ch :: c2).
  change (drop 1 (prog' :: c1 ++ [ch])) with (c1 ++ [ch]).
  rewrite !for_each_app, !for_each_cons.
  destruct (fetch_chapter ch) as [t [[]|e]]; [done|]. done.
Qed.

(** X7: only the exact [href] [index.html] is skipped.  A link to the index
    of a subdirectory (any [href] that ends in [index.html] after a
    non-empty prefix) is requested as a package page of the chapter. *)
Theorem nested_index_is_fetched ch r p :
  served (index_url ch) r ->
  p <> "" ->
  p +:+ "index.html" ∈ hrefs (BeautifulSoup (text r)) ->
  outcome (fetch_chapter ch) = Ok tt ->
  (package_url ch (p +:+ "index.html"), 30)
    ∈ requests (trace (fetch_chapter ch)).
Proof.
  intros Hs Hp Hin Hok. rewrite fetch_chapter_requests_ok by done.
  rewrite (chapter_links_served _ _ ch r Hs). apply elem_of_cons. right.
  apply list_elem_of_fmap. exists (p +:+ "index.html"). split; [done|].
  apply list_elem_of_filter. split; [|done]. by apply nested_index_href.
Qed.

Lemma find_first name before h after :
  is_tag name h = true ->
  Forall (fun n => is_tag name n = false) before ->
  head (filter (fun n => is_tag name n = true) (before ++ h :: after)) = Some h.
Proof.
  intros Hh Hb. rewrite filter_app, filter_none, filter_cons_True by
    (done || (eapply Forall_impl; [exact Hb|]; by intros n ->)).
  done.
Qed.

(** X8: when a page has several level-1 headings, the title printed is the
    text of the first one in document order, whatever follows it. *)
Theorem first_heading_is_title url r before h after :
  served url r ->
  soup_descendants (BeautifulSoup (text r)) = before ++ h :: after ->
  is_tag "h1" h = true ->
  Forall (fun n => is_tag "h1" n = false) before ->
  outcome (fetch_package url) = Ok tt
  /\ exists ws,
      trace (fetch_package url)
      = Get url 30 :: Write ("# " +:+ get_text_strip h +:+ LF +:+ LF) :: ws
      /\ requests ws = [].
Proof.
  intros Hs Hd Hh Hb.
  assert (find "h1" (BeautifulSoup (text r)) = Some h) as Hf.
  { unfold find. rewrite Hd. by apply find_first. }
  rewrite (fetch_package_served _ _ url r h Hs Hf). split; [done|].
  eexists. split; [done|]. apply requests_block_writes.
Qed.

(** X9: a chapter whose index is served and has no link to a package page
    (every [href] that the selector matches, with [.html] at its end or
    before one final line feed, is exactly [index.html]) is no error: the
    walk requests the index, prints nothing and ends normally. *)
Theorem linkless_chapter ch r :
  served (index_url ch) r ->
  (forall h, h ∈ hrefs (BeautifulSoup (text r)) ->
             re_suffix_match h ".html" = true -> h = "index.html") ->
  fetch_chapter ch = ([Get (index_url ch) 30], Ok tt).
Proof.
  intros Hs Hl. rewrite fetch_chapter_eq. unfold Spec.chapter_pages.
  rewrite (chapter_links_served _ _ ch r Hs). unfold package_links.
  rewrite filter_none.
  - destruct Hs as [Hn He]. rewrite fetch_index_eq, Hn, He. done.
  - apply Forall_forall. intros h Hin [He Hne]. by apply Hne, Hl.
Qed.

(** X10: when the index of a chapter cannot be fetched (no answer, or an
    error status), the walk of the chapter is the one GET of the index and
    the exception: no page of the chapter is requested, nothing is
    printed. *)
Theorem unfetched_index_chapter ch :
  (forall r, ~ served (index_url ch) r) ->
  exists e,
    fetch_chapter ch = ([Get (index_url ch) 30], Raise e)
    /\ (e = RequestException
        \/ exists r, network (index_url ch) = Some r
                     /\ e = HTTPError (status_code r)).
Proof.
  intros H. rewrite fetch_chapter_eq, fetch_index_eq.
  destruct (network (index_url ch)) as [r|] eqn:Hn.
  - destruct (error_status r) eqn:He.
    + exists (HTTPError (status_code r)). split; [done|]. right. by exists r.
    + by destruct (H r).
  - exists RequestException. split; [done|]. by left.
Qed.

(** X12: one run over the chapters [c1] and then [c2] does what a run over
    [c1] followed by a run over [c2] does, when the first of the two ends
    normally: the events are those of the first run followed by those of
    the second, and the run ends as the second does. *)
Theorem run_splits prog c1 c2 :
  c1 <> [] -> c2 <> [] ->
  outcome (main (prog :: c1)) = Ok tt ->
  trace (main (prog :: c1 ++ c2))
  = trace (main (prog :: c1)) ++ trace (main (prog :: c2))
  /\ stdout (trace (main (prog :: c1 ++ c2)))
     = stdout (trace (main (prog :: c1))) +:+ stdout (trace (main (prog :: c2)))
  /\ outcome (main (prog :: c1 ++ c2)) = outcome (main (prog :: c2)).
Proof.
  intros H1 H2. rewrite !main_eq by (cbn; by destruct c1).
  change (drop 1 (prog :: c1 ++ c2)) with (c1 ++ c2).
  change (drop 1 (prog :: c1)) with c1. change (drop 1 (prog :: c2)) with c2.
  intros Hok. rewrite for_each_app, bind_eq, Hok. cbn [trace outcome fst snd].
  split; [done|]. split; [|done]. apply stdout_app.
Qed.

End Walks.

(** ** A run and the URLs it does not request *)

Section Reach.
Import Spec.
Variables net1 net2 : string -> option Response.
Variable BeautifulSoup : string -> Soup.Document.

(** X11: a run depends on the server only through the answers to the URLs
    it requests: against a server that answers those URLs alike, whatever
    it answers elsewhere, the run has the same events (so the same output
    and the same requests) and ends the same way. *)
Theorem unrequested_urls_irrelevant argv :
  (forall u tm,
      (u, tm) ∈ requests (trace (Script.main net1 BeautifulSoup argv)) ->
      net1 u = net2 u) ->
  trace (Script.main net2 BeautifulSoup argv)
  = trace (Script.main net1 BeautifulSoup argv)
  /\ stdout (trace (Script.main net2 BeautifulSoup argv))
     = stdout (trace (Script.main net1 BeautifulSoup argv))
  /\ outcome (Script.main net2 BeautifulSoup argv)
     = outcome (Script.main net1 BeautifulSoup argv).
Proof.
  intros H. by rewrite (main_agree net1 net2 BeautifulSoup argv H).
Qed.

End Reach.

(** ** The theorems on the test site *)

Section Witnesses.
Import PyStr Soup Spec Demo.


(** The page with the heading Foo-1.0 and the blocks make and make install. *)
Lemma fetch_package_output_witness :
  served site (url "x/a.html") (ok "FOO")
  /\ find "h1" (parser "FOO") = Some foo_h1
  /\ stdout (trace (Script.fetch_package site parser (url "x/a.html")))
     = "# Foo-1.0" +:+ LF +:+ LF +:+ "make" +:+ LF +:+ LF
       +:+ "make install" +:+ LF +:+ LF.
Proof.
  assert (served site (url "x/a.html") (ok "FOO")) as Hs by (split; reflexivity).
  assert (find "h1" (parser "FOO") = Some foo_h1) as Hh by reflexivity.
  split; [exact Hs|]. split; [exact Hh|].
  destruct (fetch_package_output site parser (url "x/a.html") (ok "FOO") foo_h1 Hs Hh)
    as (_ & H & _).
  rewrite H. reflexivity.
Defined.

Lemma main_usage_witness :
  drop 1 ["fetch_blfs_sections.py"] = ([] : list string)
  /\ stdout (trace (Script.main site parser ["fetch_blfs_sections.py"]))
     = "Usage: fetch_blfs_sections.py CHAPTER [CHAPTER ...]" +:+ LF
  /\ exit_status (outcome (Script.main site parser ["fetch_blfs_sections.py"])) = 1
  /\ requests (trace (Script.main site parser ["fetch_blfs_sections.py"])) = [].
Proof.
  split; [reflexivity|].
  apply (main_usage site parser ["fetch_blfs_sections.py"]). reflexivity.
Defined.

(** The page of a is answered with 404: the run ends there. *)
Lemma http_error_aborts_witness :
  trace (Script.main lost_site parser ["prog"; "x"; "y"])
  = [Get (url "x/") 30] ++ Get (url "x/a.html") 30 :: []
  /\ outcome (Script.main lost_site parser ["prog"; "x"; "y"])
     = Raise (HTTPError 404)
  /\ exit_status (outcome (Script.main lost_site parser ["prog"; "x"; "y"])) = 1.
Proof.
  split; [reflexivity|].
  apply (http_error_aborts lost_site parser ["prog"; "x"; "y"]
           [Get (url "x/") 30] (url "x/a.html") 30 []
           {| status_code := 404; text := "" |}).
  - reflexivity.
  - reflexivity.
  - simpl. lia.
Defined.

Lemma command_blocks_stripped_witness :
  served site (url "x/a.html") (ok "FOO")
  /\ get_text <$> select user_input (parser "FOO")
     = ["make"; LF +:+ "make install" +:+ LF]
  /\ exists printed,
      trace (Script.fetch_package site parser (url "x/a.html"))
      = Get (url "x/a.html") 30 :: title_write foo_h1
          :: flat_map (fun p => [Write (p +:+ LF); Write LF]) printed
      /\ Forall2 (fun pre p => stripped_of (get_text pre) p)
           (select user_input (parser "FOO")) printed.
Proof.
  assert (served site (url "x/a.html") (ok "FOO")) as Hs by (split; reflexivity).
  split; [exact Hs|]. split; [reflexivity|].
  apply (command_blocks_stripped site parser (url "x/a.html") (ok "FOO") foo_h1 Hs).
  reflexivity.
Defined.


Lemma main_chapters_in_order_witness :
  drop 1 ["prog"; "x"; "y"] <> ([] : list string)
  /\ Forall (fun ch => outcome (Script.fetch_chapter site parser ch) = Ok tt)
       (drop 1 ["prog"; "x"; "y"])
  /\ stdout (trace (Script.main site parser ["prog"; "x"; "y"]))
     = stdout (trace (Script.fetch_chapter site parser "x"))
       +:+ stdout (trace (Script.fetch_chapter site parser "y")) +:+ ""
  /\ exit_status (outcome (Script.main site parser ["prog"; "x"; "y"])) = 0.
Proof.
  assert (drop 1 ["prog"; "x"; "y"] <> ([] : list string)) as Hne by discriminate.
  assert (Forall (fun ch => outcome (Script.fetch_chapter site parser ch) = Ok tt)
            (drop 1 ["prog"; "x"; "y"])) as Hok by (repeat constructor).
  split; [exact Hne|]. split; [exact Hok|].
  destruct (main_chapters_in_order site parser ["prog"; "x"; "y"] Hne) as [_ H].
  destruct (H Hok) as (_ & Hout & Hex). split; [exact Hout|exact Hex].
Defined.

(** The page of b has no heading: the run ends at its GET. *)
Lemma missing_heading_raises_witness :
  served bare_site (url "x/b.html") (ok "BARE")
  /\ find "h1" (parser "BARE") = None
  /\ Script.main bare_site parser ["prog"; "y"; "x"; "y"]
     = ([Get (url "y/") 30; Get (url "x/") 30; Get (url "x/a.html") 30;
         Write ("# Foo-1.0" +:+ LF +:+ LF);
         Write ("make" +:+ LF); Write LF; Write ("make install" +:+ LF); Write LF;
         Get (url "x/b.html") 30],
        Raise AttributeError).
Proof.
  assert (served bare_site (url "x/b.html") (ok "BARE")) as Hs
    by (split; reflexivity).
  assert (find "h1" (parser "BARE") = None) as Hh by reflexivity.
  split; [exact Hs|]. split; [exact Hh|].
  destruct (missing_heading_raises bare_site parser (url "x/b.html") (ok "BARE") Hs Hh)
    as [_ H].
  destruct (H ["prog"; "y"; "x"; "y"] ["y"] "x" ["y"] [url "x/a.html"] [])
    as [Hm _]; [reflexivity|repeat constructor|reflexivity|repeat constructor|].
  rewrite Hm. reflexivity.
Defined.

Lemma fetch_package_no_block_witness :
  served site (url "x/b.html") (ok "BAR")
  /\ find "h1" (parser "BAR") = Some bar_h1
  /\ select user_input (parser "BAR") = []
  /\ stdout (trace (Script.fetch_package site parser (url "x/b.html")))
     = "# Bar-2" +:+ LF +:+ LF.
Proof.
  assert (served site (url "x/b.html") (ok "BAR")) as Hs by (split; reflexivity).
  split; [exact Hs|]. split; [reflexivity|]. split; [reflexivity|].
  destruct (fetch_package_no_block site parser (url "x/b.html") (ok "BAR") bar_h1 Hs)
    as (_ & H & _); [reflexivity..|].
  rewrite H. reflexivity.
Defined.

(** Two servers that differ on the index of chapter "e" and two parsers
    that differ on the body TWIN: a run over chapter "x" meets neither. *)
Lemma main_deterministic_witness :
  site2 (url "e/") <> site2' (url "e/")
  /\ parser2 "TWIN" <> parser2' "TWIN"
  /\ stdout (trace (Script.main site2 parser2 ["prog"; "x"]))
     = stdout (trace (Script.main site2' parser2' ["prog"; "x"]))
  /\ exit_status (outcome (Script.main site2 parser2 ["prog"; "x"]))
     = exit_status (outcome (Script.main site2' parser2' ["prog"; "x"])).
Proof.
  split; [discriminate|]. split; [discriminate|].
  apply (main_deterministic site2 site2' parser2 parser2' ["prog"; "x"]).
  intros u tm Hin.
  change (requests (trace (Script.main site2 parser2 ["prog"; "x"])))
    with [(url "x/", 30); (url "x/a.html", 30); (url "x/b.html", 30)] in Hin.
  repeat (apply elem_of_cons in Hin as [Hin|Hin];
          [injection Hin as -> ->; split; [reflexivity|];
           intros r Hr _; vm_compute in Hr; injection Hr as <-; reflexivity|]).
  by apply elem_of_nil in Hin.
Defined.


(** C4 as stated fails: the index of chapter "x" is answered with status
    300, which is not a 2xx status, and the run goes on to chapter "y" and
    exits with status 0. *)
Lemma status_300_does_not_abort :
  ~ non_2xx_aborts choices_site parser.
Proof.
  intros H.
  destruct (H ["prog"; "x"; "y"] [] (url "x/") 30 [Get (url "y/") 30]
              {| status_code := 300; text := "" |}) as [_ Hex].
  - reflexivity.
  - reflexivity.
  - simpl. lia.
  - by apply Hex.
Qed.

End Witnesses.

(** ** The further theorems on the test sites *)

Section MoreWitnesses.
Import PyStr Soup Spec Demo.

(** Chapter "z" is not on the test site: the run ends at the GET of its
    index, after chapter "x" and before chapter "y". *)
Lemma transport_failure_aborts_witness :
  site (url "z/") = None
  /\ trace (Script.main site parser ["prog"; "x"; "z"; "y"])
     = trace (Script.fetch_chapter site parser "x") ++ [Get (url "z/") 30]
  /\ outcome (Script.main site parser ["prog"; "x"; "z"; "y"])
     = Raise RequestException
  /\ exit_status (outcome (Script.main site parser ["prog"; "x"; "z"; "y"])) = 1.
Proof.
  split; [reflexivity|]. split; [reflexivity|].
  apply (transport_failure_aborts site parser ["prog"; "x"; "z"; "y"]
           (trace (Script.fetch_chapter site parser "x")) (url "z/") 30 []);
    reflexivity.
Defined.

(** The page of b has no heading: the run ends in [AttributeError], and
    its last request is of a served page without heading. *)
Lemma failure_cause_witness :
  outcome (Script.main bare_site parser ["prog"; "x"]) = Raise AttributeError
  /\ exists pre u r,
      trace (Script.main bare_site parser ["prog"; "x"]) = pre ++ [Get u 30]
      /\ served bare_site u r /\ find "h1" (parser (text r)) = None.
Proof.
  assert (outcome (Script.main bare_site parser ["prog"; "x"])
          = Raise AttributeError) as H by reflexivity.
  split; [exact H|].
  destruct (failure_cause bare_site parser ["prog"; "x"]) as (_ & _ & _ & Ha).
  exact (Ha H).
Defined.

Lemma later_chapters_unreached_witness :
  outcome (Script.fetch_chapter site parser "z") <> Ok tt
  /\ Script.main site parser ("prog" :: ["x"] ++ "z" :: ["y"; "x"])
     = Script.main site parser ("fetch" :: ["x"] ++ ["z"]).
Proof.
  assert (outcome (Script.fetch_chapter site parser "z") <> Ok tt) as H
    by discriminate.
  split; [exact H|].
  apply (later_chapters_unreached site parser "prog" "fetch" ["x"] "z" ["y"; "x"] H).
Defined.

(** The link sub/index.html of chapter "n" is requested. *)
Lemma nested_index_is_fetched_witness :
  served site2 (index_url "n") (ok "NESTED")
  /\ hrefs (parser2 "NESTED")
     = ["sub/a.html"; "sub/index.html"; "style.css"; "index.html"]
  /\ requests (trace (Script.fetch_chapter site2 parser2 "n"))
     = [(url "n/", 30); (url "n/sub/a.html", 30); (url "n/sub/index.html", 30)]
  /\ (package_url "n" ("sub/" +:+ "index.html"), 30)
       ∈ requests (trace (Script.fetch_chapter site2 parser2 "n")).
Proof.
  assert (served site2 (index_url "n") (ok "NESTED")) as Hs
    by (split; reflexivity).
  split; [exact Hs|]. split; [reflexivity|]. split; [reflexivity|].
  apply (nested_index_is_fetched site2 parser2 "n" (ok "NESTED") "sub/" Hs).
  - discriminate.
  - apply (list_elem_of_lookup_2 _ 1%nat). reflexivity.
  - reflexivity.
Defined.

(** The page with the headings First and Second is titled First. *)
Lemma first_heading_is_title_witness :
  served site2 (url "n/sub/index.html") (ok "TWIN")
  /\ stdout (trace (Script.fetch_package site2 parser2 (url "n/sub/index.html")))
     = "# First" +:+ LF +:+ LF +:+ "true" +:+ LF +:+ LF
  /\ exists ws,
      trace (Script.fetch_package site2 parser2 (url "n/sub/index.html"))
      = Get (url "n/sub/index.html") 30
          :: Write ("# " +:+ "First" +:+ LF +:+ LF) :: ws
      /\ requests ws = [].
Proof.
  assert (served site2 (url "n/sub/index.html") (ok "TWIN")) as Hs
    by (split; reflexivity).
  split; [exact Hs|]. split; [reflexivity|].
  apply (first_heading_is_title site2 parser2 (url "n/sub/index.html") (ok "TWIN")
           [Tag "div" ∅ [Tag "h1" ∅ [NavigableString "First"]]]
           (Tag "h1" ∅ [NavigableString "First"])
           (drop 2 (soup_descendants twin_doc)) Hs).
  - reflexivity.
  - reflexivity.
  - repeat constructor.
Defined.

(** Chapter "e": the only links are index.html, a .htm page and an anchor
    without [href]. *)
Lemma linkless_chapter_witness :
  served site2 (index_url "e") (ok "LINKLESS")
  /\ hrefs (parser2 "LINKLESS") = ["index.html"; "../toc.htm"]
  /\ Script.fetch_chapter site2 parser2 "e" = ([Get (url "e/") 30], Ok tt).
Proof.
  assert (served site2 (index_url "e") (ok "LINKLESS")) as Hs
    by (split; reflexivity).
  split; [exact Hs|]. split; [reflexivity|].
  apply (linkless_chapter site2 parser2 "e" (ok "LINKLESS") Hs).
  intros h Hin He.
  change (hrefs (parser2 (text (ok "LINKLESS"))))
    with ["index.html"; "../toc.htm"] in Hin.
  apply elem_of_cons in Hin as [->|Hin]; [reflexivity|].
  apply elem_of_cons in Hin as [->|Hin]; [discriminate He|].
  by apply elem_of_nil in Hin.
Defined.

Lemma unfetched_index_chapter_witness :
  (forall r, ~ served site (index_url "z") r)
  /\ exists e,
      Script.fetch_chapter site parser "z" = ([Get (index_url "z") 30], Raise e)
      /\ (e = RequestException
          \/ exists r, site (index_url "z") = Some r
                       /\ e = HTTPError (status_code r)).
Proof.
  assert (forall r, ~ served site (index_url "z") r) as H.
  { intros r [Hn _]. discriminate Hn. }
  split; [exact H|].
  exact (unfetched_index_chapter site parser "z" H).
Defined.

(** The two sites differ on the index of chapter "e", which a run over the
    chapters "n" and "x" does not request. *)
Lemma unrequested_urls_irrelevant_witness :
  site2 (url "e/") <> site2' (url "e/")
  /\ Script.main site2' parser2 ["prog"; "n"; "x"]
     = Script.main site2 parser2 ["prog"; "n"; "x"].
Proof.
  split; [discriminate|].
  destruct (unrequested_urls_irrelevant site2 site2' parser2 ["prog"; "n"; "x"])
    as (Ht & _ & Ho).
  - intros u tm Hin.
    change (requests (trace (Script.main site2 parser2 ["prog"; "n"; "x"])))
      with [(url "n/", 30); (url "n/sub/a.html", 30); (url "n/sub/index.html", 30);
            (url "x/", 30); (url "x/a.html", 30); (url "x/b.html", 30)] in Hin.
    repeat (apply elem_of_cons in Hin as [Hin|Hin];
            [injection Hin as -> ->; reflexivity|]).
    by apply elem_of_nil in Hin.
  - unfold trace, outcome in Ht, Ho.
    destruct (Script.main site2' parser2 _), (Script.main site2 parser2 _).
    simpl in Ht, Ho. by subst.
Defined.

(** Chapters "n" and "x" in one run, and in two. *)
Lemma run_splits_witness :
  outcome (Script.main site2 parser2 ("prog" :: ["n"])) = Ok tt
  /\ stdout (trace (Script.main site2 parser2 ("prog" :: ["n"] ++ ["x"])))
     = stdout (trace (Script.main site2 parser2 ("prog" :: ["n"])))
       +:+ stdout (trace (Script.main site2 parser2 ("prog" :: ["x"])))
  /\ outcome (Script.main site2 parser2 ("prog" :: ["n"] ++ ["x"]))
     = outcome (Script.main site2 parser2 ("prog" :: ["x"])).
Proof.
  assert (outcome (Script.main site2 parser2 ("prog" :: ["n"])) = Ok tt) as H
    by reflexivity.
  split; [exact H|].
  apply (run_splits site2 parser2 "prog" ["n"] ["x"]); [discriminate..|exact H].
Defined.

End MoreWitnesses.
